(** * Order synchronisation jobs of the relayer

    A shallow embedding of the two synchronisation jobs

      - [src/jobs/opensea-sync/utils.ts]  (offset pagination, [Opensea]),
      - [src/jobs/seaport-sync/utils.ts]  (cursor pagination, [Seaport]),

    together with the properties their specification states about them.

    Modelling conventions.

    - An [async] function is a computation in the monad [M]: it threads the
      state of the outside world, may throw, and records the calls it makes
      to its collaborators (HTTP client, relay queue, database, timer) in
      chronological order.
    - The collaborators are not part of the repository; they are the fields
      of an environment record [Env], over which every theorem is
      universally quantified.
    - A [while] loop is a structurally recursive function over a number of
      iterations still allowed ("fuel"); the loop test is evaluated before
      the fuel is looked at, so [n] units of fuel pay for [n] iterations.
    - JavaScript numbers that hold counts, offsets and timestamps are [Z].
    - Calls to [logger] only format a message; they are left out, and the
      recorded calls are those to the HTTP client, the queue, the database
      and the timer.
    - The parsers are the capability the specification describes: they
      answer with an order or with nothing, and do not throw.
    - [Promise.all] over [pLimit(20)] runs [handleOrder] on every order of
      the page; the accumulators are filled here in the order of the page. *)

From Stdlib Require Import ZArith List String Ascii Bool Lia.
Import ListNotations.

Set Implicit Arguments.

Open Scope string_scope.
Open Scope list_scope.
Open Scope Z_scope.

(** ** JavaScript strings *)

Definition isUpperAscii (c : ascii) : bool :=
  ((65 <=? nat_of_ascii c) && (nat_of_ascii c <=? 90))%nat.

Definition lowerAscii (c : ascii) : ascii :=
  if isUpperAscii c then ascii_of_nat (nat_of_ascii c + 32) else c.

(** [String.prototype.toLowerCase] on the ASCII range, which is where
    hexadecimal addresses and hashes live. *)
Fixpoint toLowerCase (s : string) : string :=
  match s with
  | EmptyString => EmptyString
  | String c s' => String (lowerAscii c) (toLowerCase s')
  end.

(** A string is truthy when it is not empty. *)
Definition truthy (s : string) : bool :=
  match s with
  | EmptyString => false
  | String _ _ => true
  end.

(** [xs.length] used as a condition. *)
Definition nonEmpty {A : Type} (xs : list A) : bool :=
  match xs with
  | [] => false
  | _ :: _ => true
  end.

(** [xs[xs.length - 1]], when there is one. *)
Fixpoint lastOf {A : Type} (xs : list A) : option A :=
  match xs with
  | [] => None
  | [x] => Some x
  | _ :: xs' => lastOf xs'
  end.

(** ** Exceptions and the monad of [async] functions *)

Inductive Error : Type :=
| TypeError (message : string)
| ExternalError (message : string).

Inductive Outcome (A : Type) : Type :=
| Ok (a : A)
| Throw (e : Error).

Arguments Ok {A} a.
Arguments Throw {A} e.

(** How a call of a looping function ends. *)
Inductive Run (R : Type) : Type :=
| Returned (r : R)
| Raised (e : Error)
| OutOfFuel.

Arguments Returned {R} r.
Arguments Raised {R} e.
Arguments OutOfFuel {R}.

Section Monad.
Context {W Ev : Type}.

Definition M (A : Type) : Type := W -> Outcome A * W * list Ev.

Definition ret {A} (a : A) : M A := fun w => (Ok a, w, []).

Definition throw {A} (e : Error) : M A := fun w => (Throw e, w, []).

Definition bind {A B} (m : M A) (k : A -> M B) : M B :=
  fun w =>
    match m w with
    | (Ok a, w1, ev1) =>
        match k a w1 with
        | (r, w2, ev2) => (r, w2, ev1 ++ ev2)
        end
    | (Throw e, w1, ev1) => (Throw e, w1, ev1)
    end.

(** [try { m } catch (error) { h error }] *)
Definition try_catch {A} (m : M A) (h : Error -> M A) : M A :=
  fun w =>
    match m w with
    | (Ok a, w1, ev1) => (Ok a, w1, ev1)
    | (Throw e, w1, ev1) =>
        match h e w1 with
        | (r, w2, ev2) => (r, w2, ev1 ++ ev2)
        end
    end.

(** A call to a collaborator: the call is recorded, the collaborator
    answers and moves the world on. *)
Definition call {A} (ev : Ev) (f : W -> Outcome A * W) : M A :=
  fun w =>
    match f w with
    | (r, w1) => (r, w1, [ev])
    end.

(** [if (c) { await m }] *)
Definition when (c : bool) (m : M unit) : M unit :=
  if c then m else ret tt.

(** Synchronous code that may throw, inside an [async] function. *)
Definition lift {A} (o : Outcome A) : M A := fun w => (o, w, []).
End Monad.

Declare Scope js_scope.
Delimit Scope js_scope with js.
Notation "x <- m ;; k" := (bind m (fun x => k))
  (at level 61, m at next level, right associativity) : js_scope.
Notation "m ;; k" := (bind m (fun _ => k))
  (at level 61, right associativity) : js_scope.
Open Scope js_scope.

(** Result, final world and recorded calls of a finished computation. *)
Definition result {R W Ev : Type} (x : R * W * list Ev) : R := fst (fst x).
Definition world {R W Ev : Type} (x : R * W * list Ev) : W := snd (fst x).
Definition events {R W Ev : Type} (x : R * W * list Ev) : list Ev := snd x.

(** ** Offset pagination: [src/jobs/opensea-sync/utils.ts] *)

Module Opensea.

(** The part of [OpenSeaOrder] the job reads or writes.  [asset] is the
    heavy field the job deletes before it stores the order; [nonce] is the
    field it copies over from the parsed order. *)
Module Order.
Record Maker : Type := { address : string }.
Record t : Type := {
  prefixed_hash : string;
  target : string;
  maker : Maker;
  created_date : string;
  asset : option string;
  nonce : option string
}.
End Order.

(** [Sdk.WyvernV23.Order]: [getInfo()] may return [undefined]. *)
Module Wyvern.
Record Info : Type := { contract : string }.
Record Params : Type := { nonce : option string; body : string }.
Record Order : Type := { params : Params; getInfo : option Info }.
End Wyvern.

(** One element of [values], a row of table [orders_v23].  [created_at]
    holds the string the [Date] is built from. *)
Module Row.
Record t : Type := {
  hash : string;
  target : string;
  maker : string;
  created_at : string;
  data : Order.t;
  delayed : bool;
  source : string
}.
End Row.

Module FetchParams.
Record t : Type := {
  listedAfter : option Z;
  listedBefore : Z;
  offset : Z;
  limit : Z;
  orderDirection : string
}.
End FetchParams.

Record RequestConfig : Type := {
  headers : list (string * string);
  timeout : Z
}.

Record Envelope : Type := { kind : string; payload : Wyvern.Params }.

(** The fields of [config] the job reads. *)
Record Config : Type := {
  chainId : Z;
  backfillOpenseaApiKey : string;
  realtimeOpenseaApiKey : string
}.

(** Calls to the collaborators, as they are recorded. *)
Inductive Event : Type :=
| AxiosGet (url : string) (config : RequestConfig)
| AddToRelayOrdersQueue (orders : list Envelope) (prioritized : bool)
| DbManyOrNone (values : list Row.t)
| SetTimeout (ms : Z).

(** The collaborators.  [db_manyOrNone] stands for the
    [INSERT ... ON CONFLICT DO NOTHING RETURNING 1] statement and answers
    with one row per newly inserted order; [Date_now] is in
    milliseconds. *)
Record Env (W : Type) : Type := {
  axios_get : string -> RequestConfig -> W -> Outcome (list Order.t) * W;
  addToRelayOrdersQueue : list Envelope -> bool -> W -> Outcome unit * W;
  db_manyOrNone : list Row.t -> W -> Outcome (list Z) * W;
  setTimeout : Z -> W -> W;
  Date_now : W -> Z
}.

(** The local variables of [fetchOrders] that the loop updates. *)
Record LoopState : Type := {
  offset : Z;
  numOrders : Z;
  lastCreatedDate : string;
  done : bool
}.

(** What one pass through the loop body leads to: the next test of the
    loop condition, or a [return] out of the function. *)
Inductive Step : Type :=
| Next (st : LoopState)
| Return (value : string).

Definition maxOrdersToFetch : Z := 1000.

Section Job.
Context {W : Type}.
Variable env : Env W.
Variable config : Config.
Variable buildFetchOrdersURL : FetchParams.t -> string.
Variable parseOpenSeaOrder : Order.t -> option Wyvern.Order.

(** Arguments of [fetchOrders]. *)
Variables (listedAfter listedBefore : Z) (backfill once : bool).
Variables (offset0 limit : Z).

(** The argument of [buildFetchOrdersURL] (lines 28-35); [now] is
    [Date.now()]. *)
Definition fetchParams (now : Z) (offset : Z) : FetchParams.t :=
  {| FetchParams.listedAfter := if once then None else Some listedAfter;
     FetchParams.listedBefore := if once then now / 1000 else listedBefore;
     FetchParams.offset := offset;
     FetchParams.limit := limit;
     FetchParams.orderDirection := "desc" |}.

(** The second argument of [axios.get] (lines 40-48). *)
Definition requestConfig : RequestConfig :=
  if chainId config =? 1
  then {| headers :=
            [("x-api-key",
              if backfill then backfillOpenseaApiKey config
              else realtimeOpenseaApiKey config)];
          timeout := 10000 |}
  else {| headers := []; timeout := 10000 |}.

(** [handleOrder] (lines 56-84): the parsed order, if any, and the row
    pushed on [values]. *)
Definition handleOrder (order : Order.t) : option Wyvern.Order * Row.t :=
  let orderTarget := Order.target order in
  let parsed := parseOpenSeaOrder order in
  let orderTarget :=
    match parsed with
    | Some p =>
        match Wyvern.getInfo p with
        | Some info => Wyvern.contract info
        | None => orderTarget
        end
    | None => orderTarget
    end in
  let nonce :=
    match parsed with
    | Some p =>
        match Wyvern.nonce (Wyvern.params p) with
        | Some n => if truthy n then Some n else Order.nonce order
        | None => Order.nonce order
        end
    | None => Order.nonce order
    end in
  let order :=
    {| Order.prefixed_hash := Order.prefixed_hash order;
       Order.target := Order.target order;
       Order.maker := Order.maker order;
       Order.created_date := Order.created_date order;
       Order.asset := None;
       Order.nonce := nonce |} in
  (parsed,
   {| Row.hash := Order.prefixed_hash order;
      Row.target := toLowerCase orderTarget;
      Row.maker := toLowerCase (Order.address (Order.maker order));
      Row.created_at := Order.created_date order;
      Row.data := order;
      Row.delayed := negb once;
      Row.source := "opensea" |}).

(** [parsedOrders] and [values] after line 87. *)
Definition parsedOrdersOf (orders : list Order.t) : list Wyvern.Order :=
  flat_map (fun order =>
              match fst (handleOrder order) with
              | Some p => [p]
              | None => []
              end) orders.

Definition valuesOf (orders : list Order.t) : list Row.t :=
  map (fun order => snd (handleOrder order)) orders.

Definition envelope (order : Wyvern.Order) : Envelope :=
  {| kind := "wyvern-v2.3"; payload := Wyvern.params order |}.

(** Lines 121-136: the loop variables after a page of [orders]. *)
Definition advance (st : LoopState) (orders : list Order.t) : LoopState :=
  let numOrders := numOrders st + Z.of_nat (List.length orders) in
  let done0 :=
    if once then true
    else if Z.of_nat (List.length orders) <? limit then true
    else done st in
  let offset :=
    if once then offset st
    else if Z.of_nat (List.length orders) <? limit then offset st
    else offset st + limit in
  let done1 :=
    if negb backfill && (maxOrdersToFetch <=? numOrders) then true
    else done0 in
  let lastCreatedDate :=
    match lastOf orders with
    | Some o => Order.created_date o
    | None => lastCreatedDate st
    end in
  {| offset := offset;
     numOrders := numOrders;
     lastCreatedDate := lastCreatedDate;
     done := done1 |}.

(** The [try] block (lines 38-141).  Nothing in it can throw once the
    loop variables have been assigned, so the variables are updated in
    one step at its end. *)
Definition tryBlock (url : string) (st : LoopState) : M (W := W) LoopState :=
  orders <- call (AxiosGet url requestConfig)
                 (axios_get env url requestConfig) ;;
  let parsedOrders := parsedOrdersOf orders in
  let values := valuesOf orders in
  when (nonEmpty parsedOrders)
       (call (AddToRelayOrdersQueue (map envelope parsedOrders) true)
             (addToRelayOrdersQueue env (map envelope parsedOrders) true)) ;;
  when (nonEmpty values)
       (_ <- call (DbManyOrNone values) (db_manyOrNone env values) ;;
        ret tt) ;;
  when (negb once)
       (call (SetTimeout 1000)
             (fun w => (Ok tt, setTimeout env 1000 w))) ;;
  ret (advance st orders).

(** The [catch] block (lines 142-153). *)
Definition catchBlock (st : LoopState) (error : Error) : M (W := W) (Ev := Event) Step :=
  if negb backfill then ret (Return (lastCreatedDate st))
  else throw error.

(** [url] (line 28); [Date.now()] is read from the world. *)
Definition urlAt (st : LoopState) (w : W) : string :=
  buildFetchOrdersURL (fetchParams (Date_now env w) (offset st)).

(** One pass through the body of the [while] loop (lines 28-153). *)
Definition iteration (st : LoopState) : M (W := W) Step :=
  fun w =>
    try_catch (st' <- tryBlock (urlAt st w) st ;; ret (Next st'))
              (catchBlock st) w.

(** [while (!done) { ... }] followed by [return lastCreatedDate]. *)
Fixpoint loop (fuel : nat) (st : LoopState) (w : W)
  : Run string * W * list Event :=
  if done st then (Returned (lastCreatedDate st), w, [])
  else
    match fuel with
    | O => (OutOfFuel, w, [])
    | S fuel' =>
        match iteration st w with
        | (Ok (Next st'), w1, ev1) =>
            match loop fuel' st' w1 with
            | (r, w2, ev2) => (r, w2, ev1 ++ ev2)
            end
        | (Ok (Return value), w1, ev1) => (Returned value, w1, ev1)
        | (Throw e, w1, ev1) => (Raised e, w1, ev1)
        end
    end.

Definition initialState : LoopState :=
  {| offset := offset0; numOrders := 0; lastCreatedDate := ""; done := false |}.

(** [fetchOrders(listedAfter, listedBefore, backfill, once, offset, limit)] *)
Definition fetchOrders (fuel : nat) (w : W) : Run string * W * list Event :=
  loop fuel initialState w.

(** *** Observing a run *)

(** The page the upstream hands out for the request made from [st]
    in world [w]. *)
Definition fetchedPage (st : LoopState) (w : W) : option (list Order.t) :=
  match axios_get env (urlAt st w) requestConfig w with
  | (Ok orders, _) => Some orders
  | (Throw _, _) => None
  end.

(** [pagesProcessed n st w]: the loop, entered at [st] in world [w],
    gets through [n] passes without an error and is about to test its
    condition again; the pages it was served, and where it stands. *)
Fixpoint pagesProcessed (n : nat) (st : LoopState) (w : W)
  : option (list (list Order.t) * LoopState * W) :=
  match n with
  | O => Some ([], st, w)
  | S n' =>
      if done st then None
      else
        match fetchedPage st w, tryBlock (urlAt st w) st w with
        | Some orders, (Ok st1, w1, _) =>
            match pagesProcessed n' st1 w1 with
            | Some (pages, st2, w2) => Some (orders :: pages, st2, w2)
            | None => None
            end
        | _, _ => None
        end
  end.
End Job.

(** The creation date of the last order seen on [pages], the empty string
    when no order was seen. *)
Definition lastCreatedOf (pages : list (list Order.t)) : string :=
  match lastOf (List.concat pages) with
  | Some order => Order.created_date order
  | None => ""
  end.

Definition isAxiosGet (ev : Event) : bool :=
  match ev with
  | AxiosGet _ _ => true
  | _ => false
  end.

Definition isSetTimeout (ev : Event) : bool :=
  match ev with
  | SetTimeout _ => true
  | _ => false
  end.

(** Number of page requests among the recorded calls. *)
Definition fetchCount (evs : list Event) : nat :=
  List.length (filter isAxiosGet evs).

(** Number of timer waits among the recorded calls. *)
Definition delayCount (evs : list Event) : nat :=
  List.length (filter isSetTimeout evs).

(** [delayedFetches rested evs]: in the chronological record [evs], every
    page request comes after a wait of one second that no other page
    request separates it from; [rested] tells whether the next request is
    already entitled to go out (as the first one of a call is). *)
Fixpoint delayedFetches (rested : bool) (evs : list Event) : bool :=
  match evs with
  | [] => true
  | AxiosGet _ _ :: evs' => rested && delayedFetches false evs'
  | SetTimeout ms :: evs' => delayedFetches (rested || (ms =? 1000)) evs'
  | _ :: evs' => delayedFetches rested evs'
  end.

End Opensea.

(** ** Cursor pagination: [src/jobs/seaport-sync/utils.ts] *)

Module Seaport.

(** The part of [SeaportOrder] the job reads. *)
Module Order.
Record Maker : Type := { address : string }.
Record OfferItem : Type := { token : string; identifierOrCriteria : string }.
Record Parameters : Type := { offer : list OfferItem }.
Record ProtocolData : Type := { parameters : Parameters; signature : string }.
Record t : Type := {
  order_hash : string;
  maker : Maker;
  created_date : string;
  protocol_data : ProtocolData
}.
End Order.

(** [Sdk.Seaport.Order]: [getInfo()] may return [undefined]. *)
Module Sdk.
Record Info : Type := { contract : string }.
Record Params : Type := { body : string }.
Record Order : Type := { params : Params; getInfo : option Info }.
End Sdk.

(** One element of [values], a row of table [orders_v23]. *)
Module Row.
Record t : Type := {
  hash : string;
  target : string;
  maker : string;
  created_at : string;
  data : Order.ProtocolData;
  source : string
}.
End Row.

(** The argument of [seaport.buildFetchOrdersURL]; a property that is
    [null] or not given is [None]. *)
Module FetchParams.
Record t : Type := {
  orderBy : string;
  orderDirection : string;
  limit : Z;
  cursor : option string;
  listedAfter : option Z;
  listedBefore : option Z
}.
End FetchParams.

Record RequestConfig : Type := {
  headers : list (string * string);
  timeout : Z
}.

(** [response.data] *)
Record ResponseData : Type := {
  orders : list Order.t;
  next : option string
}.

Record Envelope : Type := { kind : string; payload : Sdk.Params }.

Inductive Event : Type :=
| AxiosGet (url : string) (config : RequestConfig)
| DbManyOrNone (values : list Row.t)
| AddToRelayOrdersQueue (orders : list Envelope) (prioritized : bool).

Record Env (W : Type) : Type := {
  axios_get : string -> RequestConfig -> W -> Outcome ResponseData * W;
  db_manyOrNone : list Row.t -> W -> Outcome (list Z) * W;
  addToRelayOrdersQueue : list Envelope -> bool -> W -> Outcome unit * W
}.

Definition requestConfig : RequestConfig :=
  {| headers :=
       [("user-agent",
         "Mozilla/5.0 (X11; Fedora; Linux x86_64; rv:89.0) Gecko/20100101 Firefox/89.0")];
     timeout := 20000 |}.

Definition envelope (order : Sdk.Order) : Envelope :=
  {| kind := "seaport"; payload := Sdk.params order |}.

(** [order.protocol_data.parameters.offer[0].token]: reading [token] of
    [undefined] throws when the offer is empty. *)
Definition firstOfferToken (order : Order.t) : Outcome string :=
  match Order.offer (Order.parameters (Order.protocol_data order)) with
  | item :: _ => Ok (Order.token item)
  | [] => Throw (TypeError "Cannot read properties of undefined (reading 'token')")
  end.

(** [parsed?.getInfo()?.contract] *)
Definition parsedContract (parsed : option Sdk.Order) : option string :=
  match parsed with
  | Some p =>
      match Sdk.getInfo p with
      | Some info => Some (Sdk.contract info)
      | None => None
      end
  | None => None
  end.

(** Running a [handleOrder] over the page (the [Promise.all] line): the
    call fails with the first failure. *)
Section Page.
Context {P R : Type}.
Variable handle : Order.t -> Outcome (option P * R).

Fixpoint handleOrders (page : list Order.t) : Outcome (list P * list R) :=
  match page with
  | [] => Ok ([], [])
  | order :: page' =>
      match handle order with
      | Throw e => Throw e
      | Ok (parsed, row) =>
          match handleOrders page' with
          | Throw e => Throw e
          | Ok (parsedOrders, values) =>
              Ok (match parsed with
                  | Some p => p :: parsedOrders
                  | None => parsedOrders
                  end,
                  row :: values)
          end
      end
  end.
End Page.

(** *** [fetchOrders], the continuous drain (lines 12-104) *)
Module FetchOrders.

Record LoopState : Type := {
  cursor : option string;
  done : bool
}.

Definition limit : Z := 50.

Section Job.
Context {W : Type}.
Variable env : Env W.
Variable buildFetchOrdersURL : FetchParams.t -> string.
Variable parseSeaportOrder : Order.t -> option Sdk.Order.

(** Lines 21-26. *)
Definition fetchParams (cursor : option string) : FetchParams.t :=
  {| FetchParams.orderBy := "created_date";
     FetchParams.orderDirection := "desc";
     FetchParams.limit := limit;
     FetchParams.cursor := cursor;
     FetchParams.listedAfter := None;
     FetchParams.listedBefore := None |}.

(** Lines 42-59. *)
Definition handleOrder (order : Order.t) : Outcome (option Sdk.Order * Row.t) :=
  let parsed := parseSeaportOrder order in
  let hash := toLowerCase (Order.order_hash order) in
  let fallback :=
    match firstOfferToken order with
    | Ok token => Ok (toLowerCase token)
    | Throw e => Throw e
    end in
  let target :=
    match parsedContract parsed with
    | Some contract =>
        if truthy (toLowerCase contract) then Ok (toLowerCase contract)
        else fallback
    | None => fallback
    end in
  match target with
  | Throw e => Throw e
  | Ok target =>
      Ok (parsed,
          {| Row.hash := hash;
             Row.target := target;
             Row.maker := toLowerCase (Order.address (Order.maker order));
             Row.created_at := Order.created_date order;
             Row.data := Order.protocol_data order;
             Row.source := "opensea" |})
  end.

(** The [try] block (lines 29-99), with the [url] of line 21. *)
Definition tryBlock (st : LoopState) : M (W := W) LoopState :=
  let url := buildFetchOrdersURL (fetchParams (cursor st)) in
  response <- call (AxiosGet url requestConfig)
                   (axios_get env url requestConfig) ;;
  let cursor := next response in
  batches <- lift (handleOrders handleOrder (orders response)) ;;
  let parsedOrders := fst batches in
  let values := snd batches in
  done <- (if nonEmpty values
           then
             result <- call (DbManyOrNone values) (db_manyOrNone env values) ;;
             ret (if nonEmpty result then done st else true)
           else ret (done st)) ;;
  when (nonEmpty parsedOrders)
       (call (AddToRelayOrdersQueue (map envelope parsedOrders) true)
             (addToRelayOrdersQueue env (map envelope parsedOrders) true)) ;;
  ret {| cursor := cursor; done := done |}.

(** One pass through the body of the loop; the [catch] block throws
    the error again (lines 100-102). *)
Definition iteration (st : LoopState) : M (W := W) LoopState :=
  try_catch (tryBlock st) (fun error => throw error).

(** [while (!done) { ... }]; the function then returns nothing. *)
Fixpoint loop (fuel : nat) (st : LoopState) (w : W)
  : Run unit * W * list Event :=
  if done st then (Returned tt, w, [])
  else
    match fuel with
    | O => (OutOfFuel, w, [])
    | S fuel' =>
        match iteration st w with
        | (Ok st', w1, ev1) =>
            match loop fuel' st' w1 with
            | (r, w2, ev2) => (r, w2, ev1 ++ ev2)
            end
        | (Throw e, w1, ev1) => (Raised e, w1, ev1)
        end
    end.

Definition initialState : LoopState := {| cursor := None; done := false |}.

Definition fetchOrders (fuel : nat) (w : W) : Run unit * W * list Event :=
  loop fuel initialState w.

(** *** Observing a run *)

(** [drained n st w]: the loop, entered at [st] in world [w], gets
    through [n] passes without an error and is about to test its
    condition again; where it stands and the calls it has made. *)
Fixpoint drained (n : nat) (st : LoopState) (w : W)
  : option (LoopState * W * list Event) :=
  match n with
  | O => Some (st, w, [])
  | S n' =>
      if done st then None
      else
        match tryBlock st w with
        | (Ok st1, w1, ev1) =>
            match drained n' st1 w1 with
            | Some (st2, w2, ev2) => Some (st2, w2, ev1 ++ ev2)
            | None => None
            end
        | (Throw _, _, _) => None
        end
  end.

(** The upstream has nothing left in the worlds [I] holds of: there every
    request is answered with an empty page, and [I] goes on to hold. *)
Definition exhausted (I : W -> Prop) : Prop :=
  forall url config w,
    I w ->
    exists next w1,
      axios_get env url config w = (Ok {| orders := []; next := next |}, w1) /\
      I w1.
End Job.
End FetchOrders.

(** *** [fetchAllOrders], the bounded window (lines 106-213) *)
Module FetchAllOrders.

Definition limit : Z := 50.

Section Job.
Context {W : Type}.
Variable env : Env W.
Variable buildFetchOrdersURL : FetchParams.t -> string.
Variable parseSeaportOrder : Order.t -> option Sdk.Order.

(** Arguments of [fetchAllOrders]. *)
Variables (fromTimestamp toTimestamp : option Z) (cursor : option string).

(** Lines 130-137. *)
Definition fetchParams : FetchParams.t :=
  {| FetchParams.orderBy := "created_date";
     FetchParams.orderDirection := "desc";
     FetchParams.limit := limit;
     FetchParams.cursor := cursor;
     FetchParams.listedAfter := fromTimestamp;
     FetchParams.listedBefore := toTimestamp |}.

(** Lines 153-170. *)
Definition handleOrder (order : Order.t) : Outcome (option Sdk.Order * Row.t) :=
  let parsed := parseSeaportOrder order in
  let hash := Order.order_hash order in
  let address :=
    match parsedContract parsed with
    | Some contract =>
        if truthy contract then Ok contract else firstOfferToken order
    | None => firstOfferToken order
    end in
  match address with
  | Throw e => Throw e
  | Ok address =>
      Ok (parsed,
          {| Row.hash := hash;
             Row.target := toLowerCase address;
             Row.maker := toLowerCase (Order.address (Order.maker order));
             Row.created_at := Order.created_date order;
             Row.data := Order.protocol_data order;
             Row.source := "opensea" |})
  end.

(** The [try] block (lines 140-209), with the [url] of line 130. *)
Definition tryBlock : M (W := W) (option string) :=
  let url := buildFetchOrdersURL fetchParams in
  response <- call (AxiosGet url requestConfig)
                   (axios_get env url requestConfig) ;;
  batches <- lift (handleOrders handleOrder (orders response)) ;;
  let parsedOrders := fst batches in
  let values := snd batches in
  when (nonEmpty values)
       (_ <- call (DbManyOrNone values) (db_manyOrNone env values) ;;
        ret tt) ;;
  when (nonEmpty parsedOrders)
       (call (AddToRelayOrdersQueue (map envelope parsedOrders) true)
             (addToRelayOrdersQueue env (map envelope parsedOrders) true)) ;;
  ret (next response).

(** [fetchAllOrders(fromTimestamp, toTimestamp, cursor)]; the [catch]
    block throws the error again (lines 210-212). *)
Definition fetchAllOrders : M (W := W) (option string) :=
  try_catch tryBlock (fun error => throw error).
End Job.
End FetchAllOrders.

Definition isAxiosGet (ev : Event) : bool :=
  match ev with
  | AxiosGet _ _ => true
  | _ => false
  end.

Definition isDbManyOrNone (ev : Event) : bool :=
  match ev with
  | DbManyOrNone _ => true
  | _ => false
  end.

(** Number of page requests among the recorded calls. *)
Definition fetchCount (evs : list Event) : nat :=
  List.length (filter isAxiosGet evs).

End Seaport.

(** ** A reference environment

    Modelled from the spec: the collaborators the jobs import from outside
    the two files (the marketplace API behind [axios], the order store
    behind [db], the relay queue, the configuration and the URL builders).
    A scripted upstream stands in front of a store whose [hash] column is
    unique: the upstream answers the requests with the replies of its
    script, in turn, and with empty pages once the script is used up; the
    insert skips the rows whose hash the store already holds and answers
    with one row per row it took in; the queue accepts everything.  The
    theorems do not depend on it: it provides the concrete runs on which
    they are tried. *)

Module Reference.

(** [INSERT ... ON CONFLICT DO NOTHING RETURNING 1] over the hashes of
    the rows: the answer and the store afterwards. *)
Fixpoint insertHashes (hashes store : list string) : list Z * list string :=
  match hashes with
  | [] => ([], store)
  | h :: hashes' =>
      if existsb (String.eqb h) store then insertHashes hashes' store
      else
        match insertHashes hashes' (h :: store) with
        | (answer, store') => (1 :: answer, store')
        end
  end.

Module OpenseaWorld.
Record World : Type := {
  upstream : list (Outcome (list Opensea.Order.t));
  store : list string;
  clock : Z
}.

Definition env : Opensea.Env World :=
  {| Opensea.axios_get := fun _ _ w =>
       match upstream w with
       | reply :: script =>
           (reply, {| upstream := script; store := store w; clock := clock w |})
       | [] => (Ok [], w)
       end;
     Opensea.addToRelayOrdersQueue := fun _ _ w => (Ok tt, w);
     Opensea.db_manyOrNone := fun values w =>
       match insertHashes (map Opensea.Row.hash values) (store w) with
       | (answer, store') =>
           (Ok answer,
            {| upstream := upstream w; store := store'; clock := clock w |})
       end;
     Opensea.setTimeout := fun ms w =>
       {| upstream := upstream w; store := store w; clock := clock w + ms |};
     Opensea.Date_now := clock |}.

Definition config : Opensea.Config :=
  {| Opensea.chainId := 1;
     Opensea.backfillOpenseaApiKey := "backfill-key";
     Opensea.realtimeOpenseaApiKey := "realtime-key" |}.

(** A URL builder that keeps the offset apart. *)
Definition buildFetchOrdersURL (p : Opensea.FetchParams.t) : string :=
  if Opensea.FetchParams.offset p =? 0 then "orders?offset=0"
  else "orders?offset>0".

Definition order (hash created : string) : Opensea.Order.t :=
  {| Opensea.Order.prefixed_hash := hash;
     Opensea.Order.target := "0xFA11BAC4";
     Opensea.Order.maker := {| Opensea.Order.address := "0xMaKeR" |};
     Opensea.Order.created_date := created;
     Opensea.Order.asset := Some "asset";
     Opensea.Order.nonce := None |}.

Definition parseNothing (_ : Opensea.Order.t) : option Opensea.Wyvern.Order :=
  None.

(** A parser whose orders expose no order information. *)
Definition parseWithoutInfo (_ : Opensea.Order.t) : option Opensea.Wyvern.Order :=
  Some {| Opensea.Wyvern.params :=
            {| Opensea.Wyvern.nonce := None; Opensea.Wyvern.body := "" |};
          Opensea.Wyvern.getInfo := None |}.

Definition parseWithContract (contract : string) (_ : Opensea.Order.t)
  : option Opensea.Wyvern.Order :=
  Some {| Opensea.Wyvern.params :=
            {| Opensea.Wyvern.nonce := Some "7"; Opensea.Wyvern.body := "" |};
          Opensea.Wyvern.getInfo :=
            Some {| Opensea.Wyvern.contract := contract |} |}.

Definition page1 : list Opensea.Order.t :=
  [order "0xA1" "2022-05-01T10:00:02"; order "0xA2" "2022-05-01T10:00:01"].

Definition page3 : list Opensea.Order.t :=
  [order "0xA3" "2022-05-01T10:00:00"].

Definition fullPage (n : nat) : list Opensea.Order.t :=
  repeat (order "0xA1" "2022-05-01T10:00:02") n.

(** Three pages of which the second cannot be fetched. *)
Definition failingSecondPage : World :=
  {| upstream := [Ok page1; Throw (ExternalError "timeout of 10000ms exceeded"); Ok page3];
     store := [];
     clock := 1651399200000 |}.

(** An upstream that keeps serving full pages of fifty orders. *)
Definition fullPages (n : nat) : World :=
  {| upstream := repeat (Ok (fullPage 50)) n;
     store := [];
     clock := 1651399200000 |}.

Definition serving (pages : list (list Opensea.Order.t)) : World :=
  {| upstream := map Ok pages; store := []; clock := 1651399200000 |}.
End OpenseaWorld.

Module SeaportWorld.
Record World : Type := {
  upstream : list (Outcome Seaport.ResponseData);
  store : list string
}.

Definition env : Seaport.Env World :=
  {| Seaport.axios_get := fun _ _ w =>
       match upstream w with
       | reply :: script => (reply, {| upstream := script; store := store w |})
       | [] => (Ok {| Seaport.orders := []; Seaport.next := None |}, w)
       end;
     Seaport.db_manyOrNone := fun values w =>
       match insertHashes (map Seaport.Row.hash values) (store w) with
       | (answer, store') =>
           (Ok answer, {| upstream := upstream w; store := store' |})
       end;
     Seaport.addToRelayOrdersQueue := fun _ _ w => (Ok tt, w) |}.

Definition buildFetchOrdersURL (p : Seaport.FetchParams.t) : string :=
  match Seaport.FetchParams.cursor p with
  | Some c => "orders?cursor=" ++ c
  | None => "orders"
  end.

Definition order (hash : string) (offer : list string) : Seaport.Order.t :=
  {| Seaport.Order.order_hash := hash;
     Seaport.Order.maker := {| Seaport.Order.address := "0xMaKeR" |};
     Seaport.Order.created_date := "2022-06-15T08:00:00";
     Seaport.Order.protocol_data :=
       {| Seaport.Order.parameters :=
            {| Seaport.Order.offer :=
                 map (fun token =>
                        {| Seaport.Order.token := token;
                           Seaport.Order.identifierOrCriteria := "1" |})
                     offer |};
          Seaport.Order.signature := "0x" |} |}.

Definition parseNothing (_ : Seaport.Order.t) : option Seaport.Sdk.Order :=
  None.

Definition parseWithoutInfo (_ : Seaport.Order.t) : option Seaport.Sdk.Order :=
  Some {| Seaport.Sdk.params := {| Seaport.Sdk.body := "" |};
          Seaport.Sdk.getInfo := None |}.

Definition parseWithContract (contract : string) (_ : Seaport.Order.t)
  : option Seaport.Sdk.Order :=
  Some {| Seaport.Sdk.params := {| Seaport.Sdk.body := "" |};
          Seaport.Sdk.getInfo := Some {| Seaport.Sdk.contract := contract |} |}.

Definition mixedCase : Seaport.Order.t := order "0xAbCdEf01" ["0xC0FFEE"].

Definition pageA : Seaport.ResponseData :=
  {| Seaport.orders := [order "0xb1" ["0xC0FFEE"]; order "0xb2" ["0xC0FFEE"]];
     Seaport.next := Some "cursor-2" |}.

Definition pageB : Seaport.ResponseData :=
  {| Seaport.orders := [order "0xb3" ["0xC0FFEE"]];
     Seaport.next := Some "cursor-3" |}.

(** Two pages, the second of which is already in the store. *)
Definition caughtUp : World :=
  {| upstream := [Ok pageA; Ok pageB]; store := ["0xb3"] |}.

Definition failingSecondPage : World :=
  {| upstream := [Ok pageA; Throw (ExternalError "timeout of 20000ms exceeded")];
     store := [] |}.

Definition drainedUpstream : World := {| upstream := []; store := [] |}.
End SeaportWorld.

End Reference.

(** ** Reading the record of a run *)

Module OpenseaTrace.

(** A row as the offset job means to store it: tagged, flagged by the
    mode, without the heavy field, with [target] and [maker] in lower case,
    and keyed and dated by the order it carries. *)
Definition normalized (once : bool) (row : Opensea.Row.t) : Prop :=
  Opensea.Row.source row = "opensea" /\
  Opensea.Row.delayed row = negb once /\
  Opensea.Order.asset (Opensea.Row.data row) = None /\
  toLowerCase (Opensea.Row.target row) = Opensea.Row.target row /\
  toLowerCase (Opensea.Row.maker row) = Opensea.Row.maker row /\
  Opensea.Row.hash row = Opensea.Order.prefixed_hash (Opensea.Row.data row) /\
  Opensea.Row.created_at row = Opensea.Order.created_date (Opensea.Row.data row).

(** What every recorded call of the offset job looks like. *)
Definition wellFormed (config : Opensea.Config) (backfill once : bool)
  (ev : Opensea.Event) : Prop :=
  match ev with
  | Opensea.AxiosGet _ requestConfig =>
      requestConfig = Opensea.requestConfig config backfill
  | Opensea.AddToRelayOrdersQueue orders prioritized =>
      orders <> [] /\ prioritized = true /\
      Forall (fun e => Opensea.kind e = "wyvern-v2.3") orders
  | Opensea.DbManyOrNone values =>
      values <> [] /\ Forall (normalized once) values
  | Opensea.SetTimeout ms => ms = 1000 /\ once = false
  end.

(** Where a pass of the offset job stands. *)
Inductive Phase : Type := Idle | Requested | Relayed | Stored.

(** The calls a pass may make next: the request first, then the relay
    queue, then the insert, then the wait that ends the pass. *)
Definition step (q : Phase) (ev : Opensea.Event) : option Phase :=
  match q, ev with
  | Idle, Opensea.AxiosGet _ _ => Some Requested
  | Requested, Opensea.AddToRelayOrdersQueue _ _ => Some Relayed
  | (Requested | Relayed), Opensea.DbManyOrNone _ => Some Stored
  | (Requested | Relayed | Stored), Opensea.SetTimeout _ => Some Idle
  | _, _ => None
  end.

Fixpoint follows (q : Phase) (evs : list Opensea.Event) : bool :=
  match evs with
  | [] => true
  | ev :: evs' =>
      match step q ev with
      | Some q' => follows q' evs'
      | None => false
      end
  end.

(** The upstream has nothing to serve in the worlds [I] holds of: there
    every request is answered with an empty page, and neither the answer
    nor the timer leads out of [I]. *)
Definition exhausted {W : Type} (env : Opensea.Env W) (I : W -> Prop) : Prop :=
  (forall url config w,
     I w -> exists w1, Opensea.axios_get env url config w = (Ok [], w1) /\ I w1) /\
  (forall ms w, I w -> I (Opensea.setTimeout env ms w)).

End OpenseaTrace.

Module SeaportTrace.

(** The fallback of [handleOrder] is needed: the parsed order gives no
    contract, or an empty one. *)
Definition needsFallback (parsed : option Seaport.Sdk.Order) : bool :=
  match Seaport.parsedContract parsed with
  | Some contract => negb (truthy contract)
  | None => true
  end.

(** The row with its hash in lower case. *)
Definition withLowerHash (row : Seaport.Row.t) : Seaport.Row.t :=
  {| Seaport.Row.hash := toLowerCase (Seaport.Row.hash row);
     Seaport.Row.target := Seaport.Row.target row;
     Seaport.Row.maker := Seaport.Row.maker row;
     Seaport.Row.created_at := Seaport.Row.created_at row;
     Seaport.Row.data := Seaport.Row.data row;
     Seaport.Row.source := Seaport.Row.source row |}.

(** The orders of a page that parse, in the order of the page. *)
Definition parsedOf (parse : Seaport.Order.t -> option Seaport.Sdk.Order)
  (page : list Seaport.Order.t) : list Seaport.Sdk.Order :=
  flat_map (fun order =>
              match parse order with
              | Some p => [p]
              | None => []
              end) page.

(** Where a pass of a cursor job stands. *)
Inductive Phase : Type := Idle | Requested | Stored | Relayed.

(** The calls a pass may make next: the request first, then the insert,
    and the relay queue only after the insert; a new pass may start from
    anywhere. *)
Definition step (q : Phase) (ev : Seaport.Event) : option Phase :=
  match q, ev with
  | _, Seaport.AxiosGet _ _ => Some Requested
  | Requested, Seaport.DbManyOrNone _ => Some Stored
  | Stored, Seaport.AddToRelayOrdersQueue _ _ => Some Relayed
  | _, _ => None
  end.

Fixpoint follows (q : Phase) (evs : list Seaport.Event) : bool :=
  match evs with
  | [] => true
  | ev :: evs' =>
      match step q ev with
      | Some q' => follows q' evs'
      | None => false
      end
  end.

End SeaportTrace.

(** * Properties *)

Unset Implicit Arguments.

(** ** Tactics and general facts *)

Ltac inv H := inversion H; subst; clear H.

(** Take a monadic computation apart, call by call. *)
Ltac unfold_monad :=
  unfold bind, call, when, ret, throw, lift, try_catch in *.

Ltac break_match_hyp :=
  match goal with
  | H : context [match ?x with _ => _ end] |- _ =>
      let E := fresh "E" in destruct x eqn:E
  end.

Lemma lastOf_app_cons {A : Type} (xs : list A) (x : A) (ys : list A) :
  lastOf (xs ++ x :: ys) = lastOf (x :: ys).
Proof.
  induction xs as [|a xs IH]; [reflexivity|].
  cbn [app lastOf]. rewrite IH.
  destruct (xs ++ x :: ys) eqn:E; [|reflexivity].
  destruct xs; discriminate.
Qed.

Lemma lastOf_app {A : Type} (xs ys : list A) :
  lastOf (xs ++ ys) =
  match lastOf ys with
  | Some y => Some y
  | None => lastOf xs
  end.
Proof.
  destruct ys as [|y ys].
  - rewrite app_nil_r. reflexivity.
  - rewrite lastOf_app_cons.
    destruct (lastOf (y :: ys)) eqn:E; [reflexivity|].
    exfalso. revert y E. induction ys as [|z ys IH]; intros y E.
    + discriminate.
    + apply (IH z). exact E.
Qed.


Lemma truthy_toLowerCase (s : string) : truthy (toLowerCase s) = truthy s.
Proof. destruct s; reflexivity. Qed.

(** *** Inversion of monadic computations *)

Section MonadFacts.
Context {W Ev : Type}.

Lemma bind_ok_inv {A B} (m : M (W := W) (Ev := Ev) A) (k : A -> M B) w b w2 ev :
  bind m k w = (Ok b, w2, ev) ->
  exists a w1 ev1 ev2,
    m w = (Ok a, w1, ev1) /\ k a w1 = (Ok b, w2, ev2) /\ ev = ev1 ++ ev2.
Proof.
  unfold bind. destruct (m w) as [[[a|e] w1] ev1]; [|discriminate].
  destruct (k a w1) as [[r w3] ev2] eqn:Ek. intros H. inv H.
  exists a, w1, ev1, ev2. repeat split. exact Ek.
Qed.

Lemma call_inv {A} (ev : Ev) (f : W -> Outcome A * W) w r w1 evs :
  call ev f w = (r, w1, evs) -> f w = (r, w1) /\ evs = [ev].
Proof.
  unfold call. destruct (f w) as [r' w']. intros H. inv H. split; reflexivity.
Qed.

Lemma ret_inv {A} (a : A) (w : W) r w1 (evs : list Ev) :
  ret a w = (r, w1, evs) -> r = Ok a /\ w1 = w /\ evs = [].
Proof. unfold ret. intros H. inv H. repeat split. Qed.

Lemma lift_inv {A} (o : Outcome A) (w : W) r w1 (evs : list Ev) :
  lift o w = (r, w1, evs) -> r = o /\ w1 = w /\ evs = [].
Proof. unfold lift. intros H. inv H. repeat split. Qed.

Lemma surjective_run {R} (x : R * W * list Ev) :
  x = (result x, world x, events x).
Proof. destruct x as [[r w] ev]. reflexivity. Qed.
End MonadFacts.

(** ** The rows ([handleOrder]) *)

Section Rows.
Variable parseO : Opensea.Order.t -> option Opensea.Wyvern.Order.
Variable once : bool.
Variable parseS : Seaport.Order.t -> option Seaport.Sdk.Order.




(** A row of a cursor job comes from an order that offers something, unless
    the parsed order's contract made the fallback unnecessary. *)
Lemma seaport_drain_row_inv (s : Seaport.Order.t) parsed row :
  Seaport.FetchOrders.handleOrder parseS s = Ok (parsed, row) ->
  parsed = parseS s /\
  Seaport.Row.hash row = toLowerCase (Seaport.Order.order_hash s).
Proof.
  unfold Seaport.FetchOrders.handleOrder. intros H.
  repeat break_match_hyp; inv H; split; reflexivity.
Qed.

End Rows.



(** The continuous drain lower-cases the order hash. *)
Lemma seaport_drain_hash_lowercased
  (parse : Seaport.Order.t -> option Seaport.Sdk.Order)
  (s : Seaport.Order.t) parsed row :
  Seaport.FetchOrders.handleOrder parse s = Ok (parsed, row) ->
  Seaport.Row.hash row = toLowerCase (Seaport.Order.order_hash s).
Proof.
  intros H. apply (seaport_drain_row_inv parse s parsed row H).
Qed.

(** C7, on the code.  The bounded window and the offset job store the order
    identifier as it comes: the row of an order whose identifier has
    upper-case digits keeps them, where the continuous drain, writing to the
    same table, lower-cases them. *)
Theorem hash_stored_as_received :
  (exists row,
     Seaport.FetchAllOrders.handleOrder Reference.SeaportWorld.parseNothing
       Reference.SeaportWorld.mixedCase = Ok (None, row) /\
     Seaport.Row.hash row = "0xAbCdEf01" /\
     Seaport.Row.hash row <>
     toLowerCase (Seaport.Order.order_hash Reference.SeaportWorld.mixedCase)) /\
  (Opensea.Row.hash
     (snd (Opensea.handleOrder Reference.OpenseaWorld.parseNothing false
             (Reference.OpenseaWorld.order "0xAbC1" "2022-05-01T10:00:02"))) =
   "0xAbC1" /\
   toLowerCase
     (Opensea.Order.prefixed_hash
        (Reference.OpenseaWorld.order "0xAbC1" "2022-05-01T10:00:02")) =
   "0xabc1") /\
  (exists row,
     Seaport.FetchOrders.handleOrder Reference.SeaportWorld.parseNothing
       Reference.SeaportWorld.mixedCase = Ok (None, row) /\
     Seaport.Row.hash row = "0xabcdef01").
Proof.
  split; [|split].
  - eexists. split; [reflexivity|]. split; [reflexivity|]. discriminate.
  - split; reflexivity.
  - eexists. split; reflexivity.
Qed.

(** ** The offset job ([Opensea.fetchOrders]) *)

Lemma fetchCount_app (xs ys : list Opensea.Event) :
  Opensea.fetchCount (xs ++ ys) = (Opensea.fetchCount xs + Opensea.fetchCount ys)%nat.
Proof. unfold Opensea.fetchCount. rewrite filter_app, length_app. reflexivity. Qed.

Section OffsetJob.
Context {W : Type}.
Variable env : Opensea.Env W.
Variable config : Opensea.Config.
Variable buildFetchOrdersURL : Opensea.FetchParams.t -> string.
Variable parseOpenSeaOrder : Opensea.Order.t -> option Opensea.Wyvern.Order.
Variables (listedAfter listedBefore : Z) (backfill once : bool).
Variables (offset0 limit : Z).

Local Abbreviation requestConfig := (Opensea.requestConfig config backfill).
Local Abbreviation advance := (Opensea.advance backfill once limit).
Local Abbreviation tryBlock :=
  (Opensea.tryBlock env config parseOpenSeaOrder backfill once limit).
Local Abbreviation urlAt :=
  (Opensea.urlAt env buildFetchOrdersURL listedAfter listedBefore once limit).
Local Abbreviation iteration :=
  (Opensea.iteration env config buildFetchOrdersURL parseOpenSeaOrder
     listedAfter listedBefore backfill once limit).
Local Abbreviation loop :=
  (Opensea.loop env config buildFetchOrdersURL parseOpenSeaOrder
     listedAfter listedBefore backfill once limit).
Local Abbreviation fetchOrders :=
  (Opensea.fetchOrders env config buildFetchOrdersURL parseOpenSeaOrder
     listedAfter listedBefore backfill once offset0 limit).
Local Abbreviation fetchedPage :=
  (Opensea.fetchedPage env config buildFetchOrdersURL
     listedAfter listedBefore backfill once limit).
Local Abbreviation pagesProcessed :=
  (Opensea.pagesProcessed env config buildFetchOrdersURL parseOpenSeaOrder
     listedAfter listedBefore backfill once limit).

(** *** The loop, one equation per way through it *)

Lemma loop_done fuel st w :
  Opensea.done st = true ->
  loop fuel st w = (Returned (Opensea.lastCreatedDate st), w, []).
Proof. intros H. destruct fuel; simpl; rewrite H; reflexivity. Qed.

Lemma loop_next fuel st w st1 w1 ev1 :
  Opensea.done st = false ->
  iteration st w = (Ok (Opensea.Next st1), w1, ev1) ->
  loop (S fuel) st w =
  (result (loop fuel st1 w1), world (loop fuel st1 w1),
   ev1 ++ events (loop fuel st1 w1)).
Proof.
  intros Hdone Hiter. cbn [Opensea.loop]. rewrite Hdone, Hiter.
  destruct (loop fuel st1 w1) as [[r w2] ev2]. reflexivity.
Qed.

(** *** One pass through the body *)

Lemma iteration_ok st w st1 w1 ev1 :
  tryBlock (urlAt st w) st w = (Ok st1, w1, ev1) ->
  iteration st w = (Ok (Opensea.Next st1), w1, ev1).
Proof.
  intros H. unfold Opensea.iteration, try_catch, bind, ret.
  rewrite H, app_nil_r. reflexivity.
Qed.

Lemma iteration_error st w e w1 ev1 :
  tryBlock (urlAt st w) st w = (Throw e, w1, ev1) ->
  iteration st w =
  if backfill then (Throw e, w1, ev1)
  else (Ok (Opensea.Return (Opensea.lastCreatedDate st)), w1, ev1).
Proof.
  intros H. unfold Opensea.iteration, try_catch, bind, Opensea.catchBlock.
  rewrite H. destruct backfill; cbn [negb]; unfold throw, ret;
    rewrite app_nil_r; reflexivity.
Qed.

(** The loop on a pass that fails: the [catch] block decides. *)
Lemma loop_error fuel st w e w1 ev1 :
  Opensea.done st = false ->
  tryBlock (urlAt st w) st w = (Throw e, w1, ev1) ->
  loop (S fuel) st w =
  if backfill then (Raised e, w1, ev1)
  else (Returned (Opensea.lastCreatedDate st), w1, ev1).
Proof.
  intros Hdone Htry. cbn [Opensea.loop].
  rewrite Hdone, (iteration_error _ _ _ _ _ Htry).
  destruct backfill; reflexivity.
Qed.

(** A pass that gets to the end of the [try] block was served a page and
    leaves the loop variables as [advance] says. *)
Lemma tryBlock_ok_inv url st w st1 w1 ev1 :
  tryBlock url st w = (Ok st1, w1, ev1) ->
  exists orders w',
    Opensea.axios_get env url requestConfig w = (Ok orders, w') /\
    st1 = advance st orders.
Proof.
  unfold Opensea.tryBlock. intros H.
  apply bind_ok_inv in H. destruct H as (orders & w' & ? & ? & Hget & H & _).
  apply call_inv in Hget. destruct Hget as [Hget _].
  exists orders, w'. split; [exact Hget|].
  do 3 (apply bind_ok_inv in H; destruct H as (? & ? & ? & ? & _ & H & _)).
  apply ret_inv in H. destruct H as [H _]. inv H. reflexivity.
Qed.

(** An error leaves the try block before the timer is set, and every pass
    makes exactly one page request, its first call. *)
Lemma tryBlock_events url st w :
  Opensea.fetchCount (events (tryBlock url st w)) = 1%nat /\
  (once = true -> Opensea.delayCount (events (tryBlock url st w)) = 0%nat) /\
  forall tail,
    Opensea.delayedFetches true (events (tryBlock url st w) ++ tail) =
    match result (tryBlock url st w) with
    | Ok _ =>
        if once then Opensea.delayedFetches false tail
        else Opensea.delayedFetches true tail
    | Throw _ => Opensea.delayedFetches false tail
    end.
Proof.
  unfold Opensea.tryBlock. unfold_monad.
  destruct (Opensea.axios_get env url requestConfig w) as [[orders|e] w1];
    [|repeat split; intros; reflexivity].
  destruct (nonEmpty (Opensea.parsedOrdersOf parseOpenSeaOrder once orders));
    [destruct (Opensea.addToRelayOrdersQueue env _ true w1) as [[[]|e] w2]|];
    try (repeat split; intros; reflexivity).
  - destruct (nonEmpty (Opensea.valuesOf parseOpenSeaOrder once orders));
      [destruct (Opensea.db_manyOrNone env _ w2) as [[answer|e] w3]|];
      try (repeat split; intros; reflexivity);
      destruct once; repeat split; intros; try discriminate; reflexivity.
  - destruct (nonEmpty (Opensea.valuesOf parseOpenSeaOrder once orders));
      [destruct (Opensea.db_manyOrNone env _ w1) as [[answer|e] w3]|];
      try (repeat split; intros; reflexivity);
      destruct once; repeat split; intros; try discriminate; reflexivity.
Qed.

(** *** The loop variables *)

Lemma advance_numOrders st orders :
  Opensea.numOrders (advance st orders) =
  Opensea.numOrders st + Z.of_nat (List.length orders).
Proof. reflexivity. Qed.

Lemma advance_lastCreatedDate st orders :
  Opensea.lastCreatedDate (advance st orders) =
  match lastOf orders with
  | Some o => Opensea.Order.created_date o
  | None => Opensea.lastCreatedDate st
  end.
Proof. reflexivity. Qed.

Lemma advance_once st orders :
  once = true -> Opensea.done (advance st orders) = true.
Proof.
  intros Honce. unfold Opensea.advance. cbn [Opensea.done]. rewrite Honce.
  destruct (negb backfill && _); reflexivity.
Qed.

Lemma advance_short_page st orders :
  Z.of_nat (List.length orders) < limit ->
  Opensea.done (advance st orders) = true.
Proof.
  intros Hshort. unfold Opensea.advance. cbn [Opensea.done].
  apply Z.ltb_lt in Hshort. rewrite Hshort.
  destruct (negb backfill && _); destruct once; reflexivity.
Qed.

Lemma advance_ceiling st orders :
  backfill = false ->
  Opensea.maxOrdersToFetch <= Opensea.numOrders st + Z.of_nat (List.length orders) ->
  Opensea.done (advance st orders) = true.
Proof.
  intros Hbackfill Hmax. unfold Opensea.advance. cbn [Opensea.done].
  apply Z.leb_le in Hmax. rewrite Hbackfill, Hmax. reflexivity.
Qed.

Lemma advance_full_page_backfill st orders :
  backfill = true -> once = false -> Opensea.done st = false ->
  limit <= Z.of_nat (List.length orders) ->
  Opensea.done (advance st orders) = false /\
  Opensea.offset (advance st orders) = Opensea.offset st + limit.
Proof.
  intros Hbackfill Honce Hdone Hfull. unfold Opensea.advance.
  cbn [Opensea.done Opensea.offset]. rewrite Hbackfill, Honce, Hdone.
  assert (Hltb : (Z.of_nat (List.length orders) <? limit) = false)
    by (apply Z.ltb_ge; exact Hfull).
  rewrite Hltb. split; reflexivity.
Qed.

(** When a pass of the realtime job leaves [done] unset, the page was full
    and the ceiling is still ahead. *)
Lemma advance_realtime_continues st orders :
  backfill = false ->
  Opensea.done (advance st orders) = false ->
  limit <= Z.of_nat (List.length orders) /\
  Opensea.numOrders (advance st orders) < Opensea.maxOrdersToFetch.
Proof.
  intros Hbackfill. unfold Opensea.advance.
  cbn [Opensea.done Opensea.numOrders]. rewrite Hbackfill. cbn [negb andb].
  destruct (Opensea.maxOrdersToFetch <=? _) eqn:Hmax; [discriminate|].
  apply Z.leb_gt in Hmax.
  destruct once; [discriminate|].
  destruct (Z.of_nat (List.length orders) <? limit) eqn:Hshort; [discriminate|].
  apply Z.ltb_ge in Hshort. intros _. split; assumption.
Qed.

(** *** Pages processed without an error *)

Lemma pagesProcessed_succ_inv n st0 w0 pages st w :
  pagesProcessed (S n) st0 w0 = Some (pages, st, w) ->
  exists orders w' st1 w1 ev1 pages',
    Opensea.done st0 = false /\
    Opensea.axios_get env (urlAt st0 w0) requestConfig w0 = (Ok orders, w') /\
    tryBlock (urlAt st0 w0) st0 w0 = (Ok st1, w1, ev1) /\
    pagesProcessed n st1 w1 = Some (pages', st, w) /\
    pages = orders :: pages'.
Proof.
  cbn [Opensea.pagesProcessed]. unfold Opensea.fetchedPage.
  destruct (Opensea.done st0); [discriminate|].
  destruct (Opensea.axios_get env (urlAt st0 w0) requestConfig w0)
    as [[orders|e] w'] eqn:Hget; [|discriminate].
  destruct (tryBlock (urlAt st0 w0) st0 w0) as [[[st1|e] w1] ev1] eqn:Htry;
    [|discriminate].
  destruct (pagesProcessed n st1 w1) as [[[pages' st'] w'']|] eqn:Hrest;
    [|discriminate].
  intros H. inv H. exists orders, w', st1, w1, ev1, pages'.
  repeat split; assumption.
Qed.

Lemma pagesProcessed_loop n :
  forall st0 w0 pages st w fuel,
    pagesProcessed n st0 w0 = Some (pages, st, w) ->
    result (loop (n + fuel) st0 w0) = result (loop fuel st w).
Proof.
  induction n as [|n IH]; intros st0 w0 pages st w fuel H.
  - inv H. reflexivity.
  - apply pagesProcessed_succ_inv in H.
    destruct H as (orders & w' & st1 & w1 & ev1 & pages' & Hdone & _ & Htry & Hrest & _).
    cbn [Nat.add].
    rewrite (loop_next _ _ _ _ _ _ Hdone (iteration_ok _ _ _ _ _ Htry)).
    cbn [result fst]. apply (IH _ _ _ _ _ _ Hrest).
Qed.

Lemma pagesProcessed_lastCreatedDate n :
  forall st0 w0 pages st w,
    pagesProcessed n st0 w0 = Some (pages, st, w) ->
    Opensea.lastCreatedDate st =
    match lastOf (List.concat pages) with
    | Some o => Opensea.Order.created_date o
    | None => Opensea.lastCreatedDate st0
    end.
Proof.
  induction n as [|n IH]; intros st0 w0 pages st w H.
  - inv H. reflexivity.
  - apply pagesProcessed_succ_inv in H.
    destruct H as (orders & w' & st1 & w1 & ev1 & pages' & _ & Hget & Htry & Hrest & ->).
    rewrite (IH _ _ _ _ _ Hrest). cbn [List.concat]. rewrite lastOf_app.
    destruct (lastOf (List.concat pages')); [reflexivity|].
    apply tryBlock_ok_inv in Htry. destruct Htry as (orders' & w'' & Hget' & ->).
    rewrite Hget in Hget'. inv Hget'. apply advance_lastCreatedDate.
Qed.

(** C1.  Take any call in which an error occurs while a page is processed:
    [n] pages go through the [try] block, the loop is still to go on, and the
    next pass throws [e] somewhere in the [try] block.  With [backfill] the
    call raises [e]; without it the call returns the creation date of the
    last order of the pages processed before, the empty string when they
    held no order. *)
Theorem fetchOrders_error_policy
  (n : nat) (w0 : W) (pages : list (list Opensea.Order.t))
  (st : Opensea.LoopState) (w : W) (e : Error) (w1 : W)
  (ev : list Opensea.Event) (fuel : nat)
  (Hpages : pagesProcessed n (Opensea.initialState offset0) w0 = Some (pages, st, w))
  (Hdone : Opensea.done st = false)
  (Herror : tryBlock (urlAt st w) st w = (Throw e, w1, ev))
  (Hfuel : (n < fuel)%nat) :
  result (fetchOrders fuel w0) =
  if backfill then Raised e else Returned (Opensea.lastCreatedOf pages).
Proof.
  unfold Opensea.fetchOrders.
  replace fuel with (n + S (fuel - n - 1))%nat by lia.
  rewrite (pagesProcessed_loop _ _ _ _ _ _ _ Hpages).
  rewrite (loop_error _ _ _ _ _ _ Hdone Herror).
  rewrite (pagesProcessed_lastCreatedDate _ _ _ _ _ _ Hpages).
  unfold Opensea.lastCreatedOf. cbn [Opensea.initialState Opensea.lastCreatedDate].
  destruct backfill; reflexivity.
Qed.

(** Without [backfill] no call raises. *)
Lemma realtime_never_raises fuel :
  backfill = false ->
  forall st w e, result (loop fuel st w) <> Raised e.
Proof.
  intros Hbackfill. induction fuel as [|fuel IH]; intros st w e.
  - simpl. destruct (Opensea.done st); discriminate.
  - destruct (Opensea.done st) eqn:Hdone.
    + rewrite (loop_done _ _ _ Hdone). discriminate.
    + destruct (tryBlock (urlAt st w) st w) as [[[st1|e1] w1] ev1] eqn:Htry.
      * rewrite (loop_next _ _ _ _ _ _ Hdone (iteration_ok _ _ _ _ _ Htry)).
        apply IH.
      * rewrite (loop_error _ _ _ _ _ _ Hdone Htry), Hbackfill. discriminate.
Qed.

(** *** Stopping *)

(** C3.  With a page size of 50, a pass that is served 49 orders and gets
    through the [try] block is the last one: the call returns after it,
    whatever the mode.  A pass that is served 50 orders, with [once] unset
    and [backfill] set, leaves [done] unset and the offset 50 further, and
    the loop goes on from there. *)
Theorem offset_stopping_rule
  (st : Opensea.LoopState) (w : W) (orders : list Opensea.Order.t) (w' : W)
  (st1 : Opensea.LoopState) (w1 : W) (ev1 : list Opensea.Event) (fuel : nat)
  (Hlimit : limit = 50)
  (Hdone : Opensea.done st = false)
  (Hget : Opensea.axios_get env (urlAt st w) requestConfig w = (Ok orders, w'))
  (Htry : tryBlock (urlAt st w) st w = (Ok st1, w1, ev1)) :
  (List.length orders = 49%nat ->
   loop (S fuel) st w = (Returned (Opensea.lastCreatedDate st1), w1, ev1)) /\
  (List.length orders = 50%nat -> once = false -> backfill = true ->
   Opensea.done st1 = false /\
   Opensea.offset st1 = Opensea.offset st + 50 /\
   loop (S fuel) st w =
   (result (loop fuel st1 w1), world (loop fuel st1 w1),
    ev1 ++ events (loop fuel st1 w1))).
Proof.
  pose proof (loop_next fuel _ _ _ _ _ Hdone (iteration_ok _ _ _ _ _ Htry)) as Hloop.
  destruct (tryBlock_ok_inv _ _ _ _ _ _ Htry) as (orders' & w'' & Hget' & Hst1).
  rewrite Hget in Hget'. injection Hget' as Horders _.
  subst orders'. subst st1.
  split.
  - intros Hlen. rewrite Hloop.
    assert (Hstop : Opensea.done (advance st orders) = true).
    { apply advance_short_page. rewrite Hlen, Hlimit. lia. }
    rewrite (loop_done fuel _ w1 Hstop). cbn [result world events fst snd].
    rewrite app_nil_r. reflexivity.
  - intros Hlen Honce Hbackfill.
    destruct (advance_full_page_backfill st orders Hbackfill Honce Hdone)
      as [Hgo Hoffset].
    { rewrite Hlen, Hlimit. lia. }
    split; [exact Hgo|]. split; [|exact Hloop].
    rewrite Hoffset, Hlimit. reflexivity.
Qed.

Lemma loop_fetchCount fuel :
  forall st w, (Opensea.fetchCount (events (loop fuel st w)) <= fuel)%nat.
Proof.
  induction fuel as [|fuel IH]; intros st w.
  - simpl. destruct (Opensea.done st); cbn; lia.
  - destruct (Opensea.done st) eqn:Hdone.
    + rewrite (loop_done _ _ _ Hdone). cbn. lia.
    + destruct (tryBlock_events (urlAt st w) st w) as [Hone _].
      destruct (tryBlock (urlAt st w) st w) as [[[st1|e] w1] ev1] eqn:Htry;
        cbn [events snd] in Hone.
      * rewrite (loop_next _ _ _ _ _ _ Hdone (iteration_ok _ _ _ _ _ Htry)).
        cbn [events snd]. rewrite fetchCount_app, Hone.
        specialize (IH st1 w1). lia.
      * rewrite (loop_error _ _ _ _ _ _ Hdone Htry).
        destruct backfill; cbn [events snd]; lia.
Qed.

(** The realtime job comes to an end: every pass that does not end the loop
    adds a full page to the count, and the count stops the loop at the
    ceiling. *)
Lemma realtime_terminates fuel :
  backfill = false -> 0 < limit ->
  forall st w,
    Opensea.done st = false -> (1 <= fuel)%nat ->
    Opensea.maxOrdersToFetch - Opensea.numOrders st <= Z.of_nat fuel * limit ->
    result (loop fuel st w) <> OutOfFuel.
Proof.
  intros Hbackfill Hlimit.
  induction fuel as [|fuel IH]; intros st w Hdone Hpos Hroom; [lia|].
  destruct (tryBlock (urlAt st w) st w) as [[[st1|e] w1] ev1] eqn:Htry.
  - rewrite (loop_next _ _ _ _ _ _ Hdone (iteration_ok _ _ _ _ _ Htry)).
    cbn [result fst].
    destruct (tryBlock_ok_inv _ _ _ _ _ _ Htry) as (orders & w' & _ & Hst1).
    destruct (Opensea.done st1) eqn:Hdone1.
    + rewrite (loop_done _ _ _ Hdone1). discriminate.
    + subst st1.
      destruct (advance_realtime_continues st orders Hbackfill Hdone1)
        as [Hfull Hbelow].
      rewrite advance_numOrders in Hbelow.
      apply IH.
      * exact Hdone1.
      * destruct fuel; [|lia]. exfalso.
        change (Z.of_nat 1) with 1 in Hroom. lia.
      * rewrite advance_numOrders. rewrite Nat2Z.inj_succ in Hroom. lia.
  - rewrite (loop_error _ _ _ _ _ _ Hdone Htry), Hbackfill. discriminate.
Qed.

(** C4.  Without [backfill], a pass that takes the count of the orders
    fetched to the ceiling of 1000 or beyond is the last one: the call
    returns after it, full page or not.  So the call comes to an end within
    as many passes as it takes full pages to reach the ceiling, whatever the
    upstream serves. *)
Theorem realtime_ceiling
  (fuel : nat) (w0 : W)
  (Hbackfill : backfill = false)
  (Hlimit : 0 < limit)
  (Hfuel : Opensea.maxOrdersToFetch <= Z.of_nat fuel * limit) :
  Opensea.maxOrdersToFetch = 1000 /\
  (forall st w st1 w1 ev1 more,
     Opensea.done st = false ->
     tryBlock (urlAt st w) st w = (Ok st1, w1, ev1) ->
     Opensea.maxOrdersToFetch <= Opensea.numOrders st1 ->
     loop (S more) st w = (Returned (Opensea.lastCreatedDate st1), w1, ev1)) /\
  result (fetchOrders fuel w0) <> OutOfFuel /\
  (Opensea.fetchCount (events (fetchOrders fuel w0)) <= fuel)%nat.
Proof.
  split; [reflexivity|]. split; [|split].
  - intros st w st1 w1 ev1 more Hdone Htry Hmax.
    rewrite (loop_next _ _ _ _ _ _ Hdone (iteration_ok _ _ _ _ _ Htry)).
    destruct (tryBlock_ok_inv _ _ _ _ _ _ Htry) as (orders & w' & _ & Hst1).
    assert (Hstop : Opensea.done st1 = true).
    { rewrite Hst1. apply advance_ceiling; [exact Hbackfill|].
      rewrite Hst1, advance_numOrders in Hmax. exact Hmax. }
    rewrite (loop_done _ _ _ Hstop). cbn [result world events fst snd].
    rewrite app_nil_r. reflexivity.
  - unfold Opensea.fetchOrders.
    apply (realtime_terminates fuel Hbackfill Hlimit (Opensea.initialState offset0) w0).
    + reflexivity.
    + unfold Opensea.maxOrdersToFetch in Hfuel.
      destruct fuel; [exfalso; change (Z.of_nat 0) with 0 in Hfuel|]; lia.
    + cbn [Opensea.initialState Opensea.numOrders]. lia.
  - apply loop_fetchCount.
Qed.

(** *** One-shot mode and the delay between pages *)

Lemma loop_once fuel st w :
  once = true -> Opensea.done st = false ->
  result (loop (S fuel) st w) <> OutOfFuel /\
  Opensea.fetchCount (events (loop (S fuel) st w)) = 1%nat /\
  Opensea.delayCount (events (loop (S fuel) st w)) = 0%nat.
Proof.
  intros Honce Hdone.
  destruct (tryBlock_events (urlAt st w) st w) as (Hone & Hnone & _).
  specialize (Hnone Honce).
  destruct (tryBlock (urlAt st w) st w) as [[[st1|e] w1] ev1] eqn:Htry;
    cbn [events snd] in Hone, Hnone.
  - rewrite (loop_next _ _ _ _ _ _ Hdone (iteration_ok _ _ _ _ _ Htry)).
    destruct (tryBlock_ok_inv _ _ _ _ _ _ Htry) as (orders & w' & _ & Hst1).
    assert (Hstop : Opensea.done st1 = true)
      by (rewrite Hst1; apply advance_once; exact Honce).
    rewrite (loop_done _ _ _ Hstop). cbn [result world events fst snd].
    rewrite app_nil_r. repeat split; [discriminate | exact Hone | exact Hnone].
  - rewrite (loop_error _ _ _ _ _ _ Hdone Htry).
    destruct backfill; cbn [result events fst snd];
      (repeat split; [discriminate | exact Hone | exact Hnone]).
Qed.

Lemma loop_delayed fuel :
  once = false ->
  forall st w, Opensea.delayedFetches true (events (loop fuel st w)) = true.
Proof.
  intros Honce. induction fuel as [|fuel IH]; intros st w.
  - simpl. destruct (Opensea.done st); reflexivity.
  - destruct (Opensea.done st) eqn:Hdone.
    + rewrite (loop_done _ _ _ Hdone). reflexivity.
    + destruct (tryBlock_events (urlAt st w) st w) as (_ & _ & Hdelay).
      destruct (tryBlock (urlAt st w) st w) as [[[st1|e] w1] ev1] eqn:Htry;
        cbn [events result fst snd] in Hdelay.
      * rewrite (loop_next _ _ _ _ _ _ Hdone (iteration_ok _ _ _ _ _ Htry)).
        cbn [events snd].
        assert (Hwait : forall tail,
                   Opensea.delayedFetches true (ev1 ++ tail) =
                   Opensea.delayedFetches true tail)
          by (intros tail; rewrite Hdelay, Honce; reflexivity).
        rewrite Hwait. apply IH.
      * rewrite (loop_error _ _ _ _ _ _ Hdone Htry).
        specialize (Hdelay []). rewrite app_nil_r in Hdelay.
        destruct backfill; cbn [events snd]; exact Hdelay.
Qed.

(** C6.  With [once] set the call makes exactly one page request, however
    many orders the page holds and whatever the page size, and never sets
    the timer.  With [once] unset every page request but the first of the
    call comes after a wait of one second. *)
Theorem one_shot_and_delay (fuel : nat) (w0 : W) :
  (once = true ->
   result (fetchOrders (S fuel) w0) <> OutOfFuel /\
   Opensea.fetchCount (events (fetchOrders (S fuel) w0)) = 1%nat /\
   Opensea.delayCount (events (fetchOrders (S fuel) w0)) = 0%nat) /\
  (once = false ->
   Opensea.delayedFetches true (events (fetchOrders fuel w0)) = true).
Proof.
  split; intros Honce; unfold Opensea.fetchOrders.
  - apply loop_once; [exact Honce | reflexivity].
  - apply loop_delayed. exact Honce.
Qed.
End OffsetJob.



(** *** The offset job in the reference environment *)

(** Three pages of two orders, the second of which cannot be fetched: the
    realtime call returns the date of the last order of the first page, the
    backfill call raises the error of the upstream. *)
Lemma fetchOrders_error_policy_witness :
  result
    (Opensea.fetchOrders Reference.OpenseaWorld.env Reference.OpenseaWorld.config
       Reference.OpenseaWorld.buildFetchOrdersURL Reference.OpenseaWorld.parseNothing
       0 0 false false 0 2 5 Reference.OpenseaWorld.failingSecondPage) =
  Returned "2022-05-01T10:00:01" /\
  result
    (Opensea.fetchOrders Reference.OpenseaWorld.env Reference.OpenseaWorld.config
       Reference.OpenseaWorld.buildFetchOrdersURL Reference.OpenseaWorld.parseNothing
       0 0 true false 0 2 5 Reference.OpenseaWorld.failingSecondPage) =
  Raised (ExternalError "timeout of 10000ms exceeded").
Proof.
  split.
  - refine (fetchOrders_error_policy Reference.OpenseaWorld.env
              Reference.OpenseaWorld.config Reference.OpenseaWorld.buildFetchOrdersURL
              Reference.OpenseaWorld.parseNothing 0 0 false false 0 2
              1 Reference.OpenseaWorld.failingSecondPage
              [Reference.OpenseaWorld.page1] _ _ _ _ _ 5 _ _ _ _);
      [vm_compute; reflexivity | reflexivity | vm_compute; reflexivity | lia].
  - refine (fetchOrders_error_policy Reference.OpenseaWorld.env
              Reference.OpenseaWorld.config Reference.OpenseaWorld.buildFetchOrdersURL
              Reference.OpenseaWorld.parseNothing 0 0 true false 0 2
              1 Reference.OpenseaWorld.failingSecondPage
              [Reference.OpenseaWorld.page1] _ _ _ _ _ 5 _ _ _ _);
      [vm_compute; reflexivity | reflexivity | vm_compute; reflexivity | lia].
Defined.

(** A page of 49 orders ends the backfill; a page of 50 takes it to
    offset 50. *)
Lemma offset_stopping_rule_witness :
  result
    (Opensea.loop Reference.OpenseaWorld.env Reference.OpenseaWorld.config
       Reference.OpenseaWorld.buildFetchOrdersURL Reference.OpenseaWorld.parseNothing
       0 0 true false 50 3 (Opensea.initialState 0)
       (Reference.OpenseaWorld.serving [Reference.OpenseaWorld.fullPage 49])) =
  Returned "2022-05-01T10:00:02" /\
  exists st1 w1 ev1,
    Opensea.tryBlock Reference.OpenseaWorld.env Reference.OpenseaWorld.config
      Reference.OpenseaWorld.parseNothing true false 50
      "orders?offset=0" (Opensea.initialState 0)
      (Reference.OpenseaWorld.fullPages 3) = (Ok st1, w1, ev1) /\
    Opensea.done st1 = false /\
    Opensea.offset st1 = 50.
Proof.
  split.
  - unshelve epose proof
      (offset_stopping_rule Reference.OpenseaWorld.env
         Reference.OpenseaWorld.config Reference.OpenseaWorld.buildFetchOrdersURL
         Reference.OpenseaWorld.parseNothing 0 0 true false 50
         (Opensea.initialState 0)
         (Reference.OpenseaWorld.serving [Reference.OpenseaWorld.fullPage 49])
         (Reference.OpenseaWorld.fullPage 49) _ _ _ _ 2 eq_refl eq_refl _ _)
      as H; [try (vm_compute; reflexivity) .. |].
    rewrite (proj1 H eq_refl). reflexivity.
  - unshelve epose proof
      (offset_stopping_rule Reference.OpenseaWorld.env
         Reference.OpenseaWorld.config Reference.OpenseaWorld.buildFetchOrdersURL
         Reference.OpenseaWorld.parseNothing 0 0 true false 50
         (Opensea.initialState 0)
         (Reference.OpenseaWorld.fullPages 3)
         (Reference.OpenseaWorld.fullPage 50) _ _ _ _ 2 eq_refl eq_refl _ _)
      as H; [try (vm_compute; reflexivity) .. |].
    destruct (proj2 H eq_refl eq_refl eq_refl) as (Hgo & Hoffset & _).
    do 3 eexists. split; [vm_compute; reflexivity|].
    split; [exact Hgo | exact Hoffset].
Defined.

(** Twenty passes are enough for the realtime job at page size 50. *)
Lemma realtime_ceiling_witness :
  result
    (Opensea.fetchOrders Reference.OpenseaWorld.env Reference.OpenseaWorld.config
       Reference.OpenseaWorld.buildFetchOrdersURL Reference.OpenseaWorld.parseNothing
       0 0 false false 0 50 20 (Reference.OpenseaWorld.fullPages 30)) <> OutOfFuel /\
  (Opensea.fetchCount
     (events
        (Opensea.fetchOrders Reference.OpenseaWorld.env Reference.OpenseaWorld.config
           Reference.OpenseaWorld.buildFetchOrdersURL
           Reference.OpenseaWorld.parseNothing
           0 0 false false 0 50 20 (Reference.OpenseaWorld.fullPages 30))) <= 20)%nat.
Proof.
  apply (realtime_ceiling Reference.OpenseaWorld.env Reference.OpenseaWorld.config
           Reference.OpenseaWorld.buildFetchOrdersURL Reference.OpenseaWorld.parseNothing
           0 0 false false 0 50 20 (Reference.OpenseaWorld.fullPages 30)
           eq_refl eq_refl).
  vm_compute. discriminate.
Defined.

(** On an upstream that keeps serving full pages, the realtime job makes
    exactly twenty requests and returns; the backfill goes through all
    thirty pages and the empty one after them. *)
Example realtime_stops_at_ceiling :
  result
    (Opensea.fetchOrders Reference.OpenseaWorld.env Reference.OpenseaWorld.config
       Reference.OpenseaWorld.buildFetchOrdersURL Reference.OpenseaWorld.parseNothing
       0 0 false false 0 50 40 (Reference.OpenseaWorld.fullPages 30)) =
  Returned "2022-05-01T10:00:02" /\
  Opensea.fetchCount
    (events
       (Opensea.fetchOrders Reference.OpenseaWorld.env Reference.OpenseaWorld.config
          Reference.OpenseaWorld.buildFetchOrdersURL Reference.OpenseaWorld.parseNothing
          0 0 false false 0 50 40 (Reference.OpenseaWorld.fullPages 30))) = 20%nat /\
  Opensea.fetchCount
    (events
       (Opensea.fetchOrders Reference.OpenseaWorld.env Reference.OpenseaWorld.config
          Reference.OpenseaWorld.buildFetchOrdersURL Reference.OpenseaWorld.parseNothing
          0 0 true false 0 50 40 (Reference.OpenseaWorld.fullPages 30))) = 31%nat.
Proof. repeat split; vm_compute; reflexivity. Qed.

(** One request and no wait with [once]; a wait before every further request
    without. *)
Lemma one_shot_and_delay_witness :
  (Opensea.fetchCount
     (events
        (Opensea.fetchOrders Reference.OpenseaWorld.env Reference.OpenseaWorld.config
           Reference.OpenseaWorld.buildFetchOrdersURL
           Reference.OpenseaWorld.parseNothing
           0 0 true true 0 50 5 (Reference.OpenseaWorld.fullPages 3))) = 1%nat /\
   Opensea.delayCount
     (events
        (Opensea.fetchOrders Reference.OpenseaWorld.env Reference.OpenseaWorld.config
           Reference.OpenseaWorld.buildFetchOrdersURL
           Reference.OpenseaWorld.parseNothing
           0 0 true true 0 50 5 (Reference.OpenseaWorld.fullPages 3))) = 0%nat) /\
  Opensea.delayedFetches true
    (events
       (Opensea.fetchOrders Reference.OpenseaWorld.env Reference.OpenseaWorld.config
          Reference.OpenseaWorld.buildFetchOrdersURL Reference.OpenseaWorld.parseNothing
          0 0 true false 0 50 5 (Reference.OpenseaWorld.fullPages 3))) = true.
Proof.
  split.
  - apply (proj1 (one_shot_and_delay Reference.OpenseaWorld.env
                    Reference.OpenseaWorld.config
                    Reference.OpenseaWorld.buildFetchOrdersURL
                    Reference.OpenseaWorld.parseNothing
                    0 0 true true 0 50 4 (Reference.OpenseaWorld.fullPages 3))
                 eq_refl).
  - apply (proj2 (one_shot_and_delay Reference.OpenseaWorld.env
                    Reference.OpenseaWorld.config
                    Reference.OpenseaWorld.buildFetchOrdersURL
                    Reference.OpenseaWorld.parseNothing
                    0 0 true false 0 50 5 (Reference.OpenseaWorld.fullPages 3))
                 eq_refl).
Defined.

(** ** The cursor jobs *)

Lemma seaport_fetchCount_app (xs ys : list Seaport.Event) :
  Seaport.fetchCount (xs ++ ys) = (Seaport.fetchCount xs + Seaport.fetchCount ys)%nat.
Proof. unfold Seaport.fetchCount. rewrite filter_app, length_app. reflexivity. Qed.

(** [handleOrders] pushes one row per order. *)
Lemma handleOrders_length {P R : Type}
  (handle : Seaport.Order.t -> Outcome (option P * R)) :
  forall page parsedOrders values,
    Seaport.handleOrders handle page = Ok (parsedOrders, values) ->
    List.length values = List.length page.
Proof.
  induction page as [|order page IH]; intros parsedOrders values H.
  - inv H. reflexivity.
  - cbn [Seaport.handleOrders] in H.
    destruct (handle order) as [[parsed row]|e]; [|discriminate].
    destruct (Seaport.handleOrders handle page) as [[ps rows]|e]; [|discriminate].
    inv H. cbn [List.length]. f_equal. apply (IH ps rows). reflexivity.
Qed.

Section ContinuousDrain.
Context {W : Type}.
Variable env : Seaport.Env W.
Variable buildFetchOrdersURL : Seaport.FetchParams.t -> string.
Variable parseSeaportOrder : Seaport.Order.t -> option Seaport.Sdk.Order.

Local Abbreviation handleOrder := (Seaport.FetchOrders.handleOrder parseSeaportOrder).
Local Abbreviation tryBlock :=
  (Seaport.FetchOrders.tryBlock env buildFetchOrdersURL parseSeaportOrder).
Local Abbreviation iteration :=
  (Seaport.FetchOrders.iteration env buildFetchOrdersURL parseSeaportOrder).
Local Abbreviation loop :=
  (Seaport.FetchOrders.loop env buildFetchOrdersURL parseSeaportOrder).
Local Abbreviation fetchOrders :=
  (Seaport.FetchOrders.fetchOrders env buildFetchOrdersURL parseSeaportOrder).
Local Abbreviation drained :=
  (Seaport.FetchOrders.drained env buildFetchOrdersURL parseSeaportOrder).
Local Abbreviation urlOf :=
  (fun st : Seaport.FetchOrders.LoopState =>
     buildFetchOrdersURL
       (Seaport.FetchOrders.fetchParams (Seaport.FetchOrders.cursor st))).

(** The [catch] block changes nothing. *)
Lemma drain_iteration st w : iteration st w = tryBlock st w.
Proof.
  unfold Seaport.FetchOrders.iteration, try_catch, throw.
  destruct (tryBlock st w) as [[[st1|e] w1] ev1]; [reflexivity|].
  rewrite app_nil_r. reflexivity.
Qed.

Lemma drain_loop_done fuel st w :
  Seaport.FetchOrders.done st = true -> loop fuel st w = (Returned tt, w, []).
Proof. intros H. destruct fuel; simpl; rewrite H; reflexivity. Qed.

Lemma drain_loop_next fuel st w st1 w1 ev1 :
  Seaport.FetchOrders.done st = false ->
  tryBlock st w = (Ok st1, w1, ev1) ->
  loop (S fuel) st w =
  (result (loop fuel st1 w1), world (loop fuel st1 w1),
   ev1 ++ events (loop fuel st1 w1)).
Proof.
  intros Hdone Htry. cbn [Seaport.FetchOrders.loop].
  rewrite Hdone, drain_iteration, Htry.
  destruct (loop fuel st1 w1) as [[r w2] ev2]. reflexivity.
Qed.

Lemma drain_loop_throw fuel st w e w1 ev1 :
  Seaport.FetchOrders.done st = false ->
  tryBlock st w = (Throw e, w1, ev1) ->
  loop (S fuel) st w = (Raised e, w1, ev1).
Proof.
  intros Hdone Htry. cbn [Seaport.FetchOrders.loop].
  rewrite Hdone, drain_iteration, Htry. reflexivity.
Qed.

(** A pass over an empty page: one request, no insert, [done] as before. *)
Lemma tryBlock_empty_page st w resp w' :
  Seaport.axios_get env (urlOf st) Seaport.requestConfig w = (Ok resp, w') ->
  Seaport.orders resp = [] ->
  tryBlock st w =
  (Ok {| Seaport.FetchOrders.cursor := Seaport.next resp;
         Seaport.FetchOrders.done := Seaport.FetchOrders.done st |},
   w', [Seaport.AxiosGet (urlOf st) Seaport.requestConfig]).
Proof.
  intros Hget Hempty. unfold Seaport.FetchOrders.tryBlock. unfold_monad.
  rewrite Hget, Hempty. reflexivity.
Qed.

(** A pass that gets to the end of the [try] block and sets [done] was
    served a page with orders on it, and the insert of its rows answered
    with no row. *)
Lemma tryBlock_sets_done st w st1 w1 ev1 :
  tryBlock st w = (Ok st1, w1, ev1) ->
  Seaport.FetchOrders.done st = false ->
  Seaport.FetchOrders.done st1 = true ->
  exists resp w' parsedOrders values w2,
    Seaport.axios_get env (urlOf st) Seaport.requestConfig w = (Ok resp, w') /\
    Seaport.orders resp <> [] /\
    Seaport.handleOrders handleOrder (Seaport.orders resp) =
    Ok (parsedOrders, values) /\
    Seaport.db_manyOrNone env values w' = (Ok [], w2).
Proof.
  unfold Seaport.FetchOrders.tryBlock. intros H Hdone Hdone1.
  apply bind_ok_inv in H. destruct H as (resp & w' & ? & ? & Hget & H & _).
  apply call_inv in Hget. destruct Hget as [Hget _].
  apply bind_ok_inv in H. destruct H as ([parsedOrders values] & ? & ? & ? & Hrows & H & _).
  apply lift_inv in Hrows. destruct Hrows as (Hrows & -> & _).
  cbn [fst snd] in H.
  apply bind_ok_inv in H. destruct H as (flag & w2 & ? & ? & Hinsert & H & _).
  apply bind_ok_inv in H. destruct H as (? & ? & ? & ? & _ & H & _).
  apply ret_inv in H. destruct H as [H _]. inv H.
  cbn [Seaport.FetchOrders.done] in Hdone1. subst flag.
  destruct (nonEmpty values) eqn:Hvalues.
  - apply bind_ok_inv in Hinsert.
    destruct Hinsert as (answer & w3 & ? & ? & Hdb & Hflag & _).
    apply call_inv in Hdb. destruct Hdb as [Hdb _].
    apply ret_inv in Hflag. destruct Hflag as (Hflag & -> & _).
    destruct answer as [|one answer].
    + exists resp, w', parsedOrders, values, w3.
      split; [exact Hget|]. split; [|split; [symmetry; exact Hrows | exact Hdb]].
      intros Hempty. symmetry in Hrows.
      apply handleOrders_length in Hrows. rewrite Hempty in Hrows.
      destruct values; discriminate.
    + cbn [nonEmpty] in Hflag. inv Hflag. congruence.
  - apply ret_inv in Hinsert. destruct Hinsert as (Hflag & _). inv Hflag. congruence.
Qed.

(** A pass whose insert answers with no row sets [done]. *)
Lemma tryBlock_zero_inserted st w resp w' parsedOrders values w2 st1 w1 ev1 :
  Seaport.axios_get env (urlOf st) Seaport.requestConfig w = (Ok resp, w') ->
  Seaport.handleOrders handleOrder (Seaport.orders resp) =
  Ok (parsedOrders, values) ->
  values <> [] ->
  Seaport.db_manyOrNone env values w' = (Ok [], w2) ->
  tryBlock st w = (Ok st1, w1, ev1) ->
  Seaport.FetchOrders.done st1 = true.
Proof.
  intros Hget Hrows Hvalues Hdb. unfold Seaport.FetchOrders.tryBlock. unfold_monad.
  rewrite Hget, Hrows. cbn [fst snd].
  destruct values as [|row values]; [elim Hvalues; reflexivity|].
  cbn [nonEmpty]. rewrite Hdb. cbn [nonEmpty].
  destruct (nonEmpty parsedOrders).
  - destruct (Seaport.addToRelayOrdersQueue env _ true w2) as [[[]|e] w3];
      intros H; inv H; reflexivity.
  - intros H; inv H; reflexivity.
Qed.

Lemma drained_succ_inv n st0 w0 st w evs :
  drained (S n) st0 w0 = Some (st, w, evs) ->
  exists st1 w1 ev1 evs',
    Seaport.FetchOrders.done st0 = false /\
    tryBlock st0 w0 = (Ok st1, w1, ev1) /\
    drained n st1 w1 = Some (st, w, evs') /\
    evs = ev1 ++ evs'.
Proof.
  cbn [Seaport.FetchOrders.drained].
  destruct (Seaport.FetchOrders.done st0); [discriminate|].
  destruct (tryBlock st0 w0) as [[[st1|e] w1] ev1]; [|discriminate].
  destruct (drained n st1 w1) as [[[st' w''] evs']|] eqn:Hrest; [|discriminate].
  intros H. inv H. exists st1, w1, ev1, evs'. repeat split; assumption.
Qed.

Lemma drained_loop n :
  forall st0 w0 st w evs fuel,
    drained n st0 w0 = Some (st, w, evs) ->
    loop (n + fuel) st0 w0 =
    (result (loop fuel st w), world (loop fuel st w),
     evs ++ events (loop fuel st w)).
Proof.
  induction n as [|n IH]; intros st0 w0 st w evs fuel H.
  - inv H. cbn [Nat.add app]. apply surjective_run.
  - apply drained_succ_inv in H.
    destruct H as (st1 & w1 & ev1 & evs' & Hdone & Htry & Hrest & ->).
    cbn [Nat.add]. rewrite (drain_loop_next _ _ _ _ _ _ Hdone Htry).
    rewrite (IH _ _ _ _ _ fuel Hrest). cbn [result world events fst snd].
    rewrite app_assoc. reflexivity.
Qed.

(** C5.  Take any call of the continuous drain that has got through [n]
    pages and is to go on.  If the insert of the next page answers with no
    row and the pass gets to the end of the [try] block, the call returns
    there, without an error and without another request.  If the pass throws
    an error, wherever in the [try] block, the call raises that error. *)
Theorem drain_stops_on_duplicates
  (n : nat) (w0 : W) (st : Seaport.FetchOrders.LoopState) (w : W)
  (evs : list Seaport.Event) (fuel : nat)
  (Hdrained : drained n Seaport.FetchOrders.initialState w0 = Some (st, w, evs))
  (Hdone : Seaport.FetchOrders.done st = false)
  (Hfuel : (n < fuel)%nat) :
  (forall resp w' parsedOrders values w2 st1 w1 ev1,
     Seaport.axios_get env (urlOf st) Seaport.requestConfig w = (Ok resp, w') ->
     Seaport.handleOrders handleOrder (Seaport.orders resp) =
     Ok (parsedOrders, values) ->
     values <> [] ->
     Seaport.db_manyOrNone env values w' = (Ok [], w2) ->
     tryBlock st w = (Ok st1, w1, ev1) ->
     fetchOrders fuel w0 = (Returned tt, w1, evs ++ ev1)) /\
  (forall e w1 ev1,
     tryBlock st w = (Throw e, w1, ev1) ->
     fetchOrders fuel w0 = (Raised e, w1, evs ++ ev1)).
Proof.
  unfold Seaport.FetchOrders.fetchOrders.
  replace fuel with (n + S (fuel - n - 1))%nat by lia.
  rewrite (drained_loop _ _ _ _ _ _ _ Hdrained).
  split.
  - intros resp w' parsedOrders values w2 st1 w1 ev1 Hget Hrows Hvalues Hdb Htry.
    rewrite (drain_loop_next _ _ _ _ _ _ Hdone Htry).
    rewrite (drain_loop_done _ _ _
               (tryBlock_zero_inserted _ _ _ _ _ _ _ _ _ _
                  Hget Hrows Hvalues Hdb Htry)).
    cbn [result world events fst snd]. rewrite app_nil_r. reflexivity.
  - intros e w1 ev1 Htry.
    rewrite (drain_loop_throw _ _ _ _ _ _ Hdone Htry). reflexivity.
Qed.

(** A call that returns has, on its last pass, been served a page with
    orders on it whose insert answered with no row. *)
Lemma drain_returns_inv fuel :
  forall st0 w0,
    Seaport.FetchOrders.done st0 = false ->
    result (loop fuel st0 w0) = Returned tt ->
    exists n st w evs resp w' parsedOrders values w2,
      drained n st0 w0 = Some (st, w, evs) /\
      Seaport.FetchOrders.done st = false /\
      Seaport.axios_get env (urlOf st) Seaport.requestConfig w = (Ok resp, w') /\
      Seaport.orders resp <> [] /\
      Seaport.handleOrders handleOrder (Seaport.orders resp) =
      Ok (parsedOrders, values) /\
      Seaport.db_manyOrNone env values w' = (Ok [], w2).
Proof.
  induction fuel as [|fuel IH]; intros st0 w0 Hdone Hret.
  - simpl in Hret. rewrite Hdone in Hret. discriminate.
  - destruct (tryBlock st0 w0) as [[[st1|e] w1] ev1] eqn:Htry.
    + rewrite (drain_loop_next _ _ _ _ _ _ Hdone Htry) in Hret.
      cbn [result fst] in Hret.
      destruct (Seaport.FetchOrders.done st1) eqn:Hdone1.
      * destruct (tryBlock_sets_done _ _ _ _ _ Htry Hdone Hdone1)
          as (resp & w' & parsedOrders & values & w2 & Hget & Hpage & Hrows & Hdb).
        exists 0%nat, st0, w0, [], resp, w', parsedOrders, values, w2.
        repeat split; assumption.
      * destruct (IH st1 w1 Hdone1 Hret)
          as (n & st & w & evs & resp & w' & parsedOrders & values & w2 &
              Hrest & Hgo & Hget & Hpage & Hrows & Hdb).
        exists (S n), st, w, (ev1 ++ evs), resp, w', parsedOrders, values, w2.
        split; [|repeat split; assumption].
        cbn [Seaport.FetchOrders.drained]. rewrite Hdone, Htry, Hrest. reflexivity.
    + rewrite (drain_loop_throw _ _ _ _ _ _ Hdone Htry) in Hret. discriminate.
Qed.

(** On an exhausted upstream the loop never gets out: every unit of fuel
    goes into one more request, and nothing is inserted. *)
Lemma drain_exhausted (I : W -> Prop) fuel :
  Seaport.FetchOrders.exhausted env I ->
  forall st w,
    I w -> Seaport.FetchOrders.done st = false ->
    result (loop fuel st w) = OutOfFuel /\
    Seaport.fetchCount (events (loop fuel st w)) = fuel /\
    filter Seaport.isDbManyOrNone (events (loop fuel st w)) = [].
Proof.
  intros Hexhausted. induction fuel as [|fuel IH]; intros st w HI Hdone.
  - simpl. rewrite Hdone. repeat split.
  - destruct (Hexhausted (urlOf st) Seaport.requestConfig w HI)
      as (next & w1 & Hget & HI1).
    pose proof (tryBlock_empty_page st w _ _ Hget eq_refl) as Htry.
    rewrite (drain_loop_next _ _ _ _ _ _ Hdone Htry).
    cbn [result events fst snd].
    set (st1 := {| Seaport.FetchOrders.cursor := _; Seaport.FetchOrders.done := _ |}).
    destruct (IH st1 w1 HI1 Hdone) as (Hout & Hcount & Hquiet).
    split; [exact Hout|]. split.
    + rewrite seaport_fetchCount_app, Hcount. reflexivity.
    + rewrite filter_app, Hquiet. reflexivity.
Qed.

(** C9.  The continuous drain returns only after a pass that was served a
    page with orders on it and whose insert answered with no row.  A pass
    that is served an empty page makes no insert and leaves [done] as it
    was; so on an upstream that has nothing left the loop goes on fetching,
    whatever the fuel. *)
Theorem drain_ends_only_on_duplicates (I : W -> Prop) (fuel : nat) (w0 : W) :
  (result (fetchOrders fuel w0) = Returned tt ->
   exists n st w evs resp w' parsedOrders values w2,
     drained n Seaport.FetchOrders.initialState w0 = Some (st, w, evs) /\
     Seaport.FetchOrders.done st = false /\
     Seaport.axios_get env (urlOf st) Seaport.requestConfig w = (Ok resp, w') /\
     Seaport.orders resp <> [] /\
     Seaport.handleOrders handleOrder (Seaport.orders resp) =
     Ok (parsedOrders, values) /\
     Seaport.db_manyOrNone env values w' = (Ok [], w2)) /\
  (forall st w resp w',
     Seaport.axios_get env (urlOf st) Seaport.requestConfig w = (Ok resp, w') ->
     Seaport.orders resp = [] ->
     tryBlock st w =
     (Ok {| Seaport.FetchOrders.cursor := Seaport.next resp;
            Seaport.FetchOrders.done := Seaport.FetchOrders.done st |},
      w', [Seaport.AxiosGet (urlOf st) Seaport.requestConfig])) /\
  (Seaport.FetchOrders.exhausted env I -> I w0 ->
   result (fetchOrders fuel w0) = OutOfFuel /\
   Seaport.fetchCount (events (fetchOrders fuel w0)) = fuel /\
   filter Seaport.isDbManyOrNone (events (fetchOrders fuel w0)) = []).
Proof.
  split; [|split].
  - intros Hret. apply (drain_returns_inv fuel _ w0); [reflexivity | exact Hret].
  - intros st w resp w' Hget Hempty. apply tryBlock_empty_page; assumption.
  - intros Hexhausted HI. unfold Seaport.FetchOrders.fetchOrders.
    apply (drain_exhausted I fuel Hexhausted); [exact HI | reflexivity].
Qed.
End ContinuousDrain.

Section BoundedWindow.
Context {W : Type}.
Variable env : Seaport.Env W.
Variable buildFetchOrdersURL : Seaport.FetchParams.t -> string.
Variable parseSeaportOrder : Seaport.Order.t -> option Seaport.Sdk.Order.
Variables (fromTimestamp toTimestamp : option Z) (cursor : option string).

Local Abbreviation tryBlock :=
  (Seaport.FetchAllOrders.tryBlock env buildFetchOrdersURL parseSeaportOrder
     fromTimestamp toTimestamp cursor).
Local Abbreviation fetchAllOrders :=
  (Seaport.FetchAllOrders.fetchAllOrders env buildFetchOrdersURL parseSeaportOrder
     fromTimestamp toTimestamp cursor).
Local Abbreviation url :=
  (buildFetchOrdersURL
     (Seaport.FetchAllOrders.fetchParams fromTimestamp toTimestamp cursor)).

(** The [catch] block changes nothing. *)
Lemma window_catch w : fetchAllOrders w = tryBlock w.
Proof.
  unfold Seaport.FetchAllOrders.fetchAllOrders, try_catch, throw.
  destruct (tryBlock w) as [[[token|e] w1] ev1]; [reflexivity|].
  rewrite app_nil_r. reflexivity.
Qed.



End BoundedWindow.

(** *** The cursor jobs in the reference environment *)

(** Two pages of which the second is in the store already: the drain
    returns after two requests.  An upstream that fails on the second page:
    the drain raises its error. *)
Lemma drain_stops_on_duplicates_witness :
  result
    (Seaport.FetchOrders.fetchOrders Reference.SeaportWorld.env
       Reference.SeaportWorld.buildFetchOrdersURL Reference.SeaportWorld.parseNothing
       5 Reference.SeaportWorld.caughtUp) = Returned tt /\
  Seaport.fetchCount
    (events
       (Seaport.FetchOrders.fetchOrders Reference.SeaportWorld.env
          Reference.SeaportWorld.buildFetchOrdersURL
          Reference.SeaportWorld.parseNothing
          5 Reference.SeaportWorld.caughtUp)) = 2%nat /\
  result
    (Seaport.FetchOrders.fetchOrders Reference.SeaportWorld.env
       Reference.SeaportWorld.buildFetchOrdersURL Reference.SeaportWorld.parseNothing
       5 Reference.SeaportWorld.failingSecondPage) =
  Raised (ExternalError "timeout of 20000ms exceeded").
Proof.
  unshelve epose proof
    (drain_stops_on_duplicates Reference.SeaportWorld.env
       Reference.SeaportWorld.buildFetchOrdersURL Reference.SeaportWorld.parseNothing
       1 Reference.SeaportWorld.caughtUp _ _ _ 5 _ _ _) as Hcaught;
    [try (vm_compute; reflexivity) .. | lia |].
  unshelve epose proof
    (drain_stops_on_duplicates Reference.SeaportWorld.env
       Reference.SeaportWorld.buildFetchOrdersURL Reference.SeaportWorld.parseNothing
       1 Reference.SeaportWorld.failingSecondPage _ _ _ 5 _ _ _) as Hfailing;
    [try (vm_compute; reflexivity) .. | lia |].
  destruct Hcaught as [Hcaught _]. destruct Hfailing as [_ Hfailing].
  split; [|split].
  - erewrite Hcaught;
      [reflexivity | vm_compute; reflexivity | vm_compute; reflexivity
       | discriminate | vm_compute; reflexivity | vm_compute; reflexivity].
  - erewrite Hcaught; cycle 1;
      [vm_compute; reflexivity | vm_compute; reflexivity | discriminate
       | vm_compute; reflexivity | vm_compute; reflexivity | vm_compute; reflexivity].
  - erewrite Hfailing; [reflexivity | vm_compute; reflexivity].
Defined.

(** On the upstream with nothing left, seven units of fuel go into seven
    requests and the drain is still not done. *)
Lemma drain_ends_only_on_duplicates_witness :
  result
    (Seaport.FetchOrders.fetchOrders Reference.SeaportWorld.env
       Reference.SeaportWorld.buildFetchOrdersURL Reference.SeaportWorld.parseNothing
       7 Reference.SeaportWorld.drainedUpstream) = OutOfFuel /\
  Seaport.fetchCount
    (events
       (Seaport.FetchOrders.fetchOrders Reference.SeaportWorld.env
          Reference.SeaportWorld.buildFetchOrdersURL
          Reference.SeaportWorld.parseNothing
          7 Reference.SeaportWorld.drainedUpstream)) = 7%nat /\
  filter Seaport.isDbManyOrNone
    (events
       (Seaport.FetchOrders.fetchOrders Reference.SeaportWorld.env
          Reference.SeaportWorld.buildFetchOrdersURL
          Reference.SeaportWorld.parseNothing
          7 Reference.SeaportWorld.drainedUpstream)) = [].
Proof.
  apply (proj2 (proj2 (drain_ends_only_on_duplicates Reference.SeaportWorld.env
                         Reference.SeaportWorld.buildFetchOrdersURL
                         Reference.SeaportWorld.parseNothing
                         (fun w => Reference.SeaportWorld.upstream w = [])
                         7 Reference.SeaportWorld.drainedUpstream))).
  - intros url config w Hw. exists None, w.
    cbn [Seaport.axios_get Reference.SeaportWorld.env].
    split; [rewrite Hw; reflexivity | exact Hw].
  - reflexivity.
Defined.


(** Run again over a store that holds everything the upstream has, the
    drain stops after its first page and inserts nothing. *)
Example drain_is_idempotent :
  forall w1,
    w1 =
    world
      (Seaport.FetchOrders.fetchOrders Reference.SeaportWorld.env
         Reference.SeaportWorld.buildFetchOrdersURL
         Reference.SeaportWorld.parseNothing
         5 Reference.SeaportWorld.caughtUp) ->
    let again :=
      Seaport.FetchOrders.fetchOrders Reference.SeaportWorld.env
        Reference.SeaportWorld.buildFetchOrdersURL
        Reference.SeaportWorld.parseNothing 5
        {| Reference.SeaportWorld.upstream :=
             [Ok Reference.SeaportWorld.pageA; Ok Reference.SeaportWorld.pageB];
           Reference.SeaportWorld.store := Reference.SeaportWorld.store w1 |} in
    result again = Returned tt /\
    Seaport.fetchCount (events again) = 1%nat /\
    Reference.SeaportWorld.store (world again) = Reference.SeaportWorld.store w1.
Proof. intros w1 ->. vm_compute. repeat split. Qed.

(** ** More on the offset job *)

Lemma lowerAscii_idempotent (c : ascii) : lowerAscii (lowerAscii c) = lowerAscii c.
Proof.
  destruct c as [b0 b1 b2 b3 b4 b5 b6 b7].
  destruct b0, b1, b2, b3, b4, b5, b6, b7; vm_compute; reflexivity.
Qed.

Lemma toLowerCase_idempotent (s : string) :
  toLowerCase (toLowerCase s) = toLowerCase s.
Proof.
  induction s as [|c s IH]; [reflexivity|].
  cbn [toLowerCase]. rewrite lowerAscii_idempotent, IH. reflexivity.
Qed.

Lemma nonEmpty_map {A B : Type} (f : A -> B) (xs : list A) :
  nonEmpty xs = true -> map f xs <> [].
Proof. destruct xs; [discriminate|]. intros _ H. discriminate H. Qed.

Lemma nonEmpty_not_nil {A : Type} (xs : list A) : nonEmpty xs = true -> xs <> [].
Proof. destruct xs; [discriminate|]. intros _ H. discriminate H. Qed.

Section OffsetJobRecord.
Context {W : Type}.
Variable env : Opensea.Env W.
Variable config : Opensea.Config.
Variable buildFetchOrdersURL : Opensea.FetchParams.t -> string.
Variable parseOpenSeaOrder : Opensea.Order.t -> option Opensea.Wyvern.Order.
Variables (listedAfter listedBefore : Z) (backfill once : bool).
Variables (offset0 limit : Z).

Local Abbreviation requestConfig := (Opensea.requestConfig config backfill).
Local Abbreviation advance := (Opensea.advance backfill once limit).
Local Abbreviation tryBlock :=
  (Opensea.tryBlock env config parseOpenSeaOrder backfill once limit).
Local Abbreviation urlAt :=
  (Opensea.urlAt env buildFetchOrdersURL listedAfter listedBefore once limit).
Local Abbreviation loop :=
  (Opensea.loop env config buildFetchOrdersURL parseOpenSeaOrder
     listedAfter listedBefore backfill once limit).
Local Abbreviation fetchOrders :=
  (Opensea.fetchOrders env config buildFetchOrdersURL parseOpenSeaOrder
     listedAfter listedBefore backfill once offset0 limit).
Local Abbreviation pagesProcessed :=
  (Opensea.pagesProcessed env config buildFetchOrdersURL parseOpenSeaOrder
     listedAfter listedBefore backfill once limit).
Local Abbreviation wellFormed := (OpenseaTrace.wellFormed config backfill once).

Lemma handleOrder_normalized (order : Opensea.Order.t) :
  OpenseaTrace.normalized once
    (snd (Opensea.handleOrder parseOpenSeaOrder once order)).
Proof.
  unfold OpenseaTrace.normalized, Opensea.handleOrder.
  cbn [snd Opensea.Row.source Opensea.Row.delayed Opensea.Row.data
         Opensea.Row.target Opensea.Row.maker Opensea.Row.hash
         Opensea.Row.created_at Opensea.Order.asset
         Opensea.Order.prefixed_hash Opensea.Order.created_date].
  repeat split; apply toLowerCase_idempotent.
Qed.

Lemma valuesOf_normalized (orders : list Opensea.Order.t) :
  Forall (OpenseaTrace.normalized once)
    (Opensea.valuesOf parseOpenSeaOrder once orders).
Proof.
  unfold Opensea.valuesOf. apply Forall_map, Forall_forall.
  intros order _. apply handleOrder_normalized.
Qed.

Lemma envelopes_kind (parsedOrders : list Opensea.Wyvern.Order) :
  Forall (fun e => Opensea.kind e = "wyvern-v2.3")
    (map Opensea.envelope parsedOrders).
Proof. apply Forall_map, Forall_forall. intros p _. reflexivity. Qed.

(** Every call of a pass is well formed. *)
Lemma tryBlock_wellFormed url st w :
  Forall wellFormed (events (tryBlock url st w)).
Proof.
  pose proof (fun orders => valuesOf_normalized orders) as Hrows.
  pose proof envelopes_kind as Hkind.
  unfold Opensea.tryBlock. unfold_monad.
  destruct (Opensea.axios_get env url requestConfig w) as [[orders|e] w1];
    [|repeat constructor].
  assert (Hget : wellFormed (Opensea.AxiosGet url requestConfig)) by reflexivity.
  repeat match goal with
         | |- context [Opensea.addToRelayOrdersQueue env ?a ?b ?x] =>
             destruct (Opensea.addToRelayOrdersQueue env a b x) as [[[]|?] ?]
         | |- context [Opensea.db_manyOrNone env ?a ?x] =>
             destruct (Opensea.db_manyOrNone env a x) as [[?|?] ?]
         | |- context [nonEmpty ?xs] => destruct (nonEmpty xs) eqn:?
         end;
    destruct once eqn:Honce; cbn [negb events snd app];
    repeat (apply Forall_cons || apply Forall_nil);
    try exact Hget;
    try (split; [apply nonEmpty_map; assumption | split; [reflexivity | apply Hkind]]);
    try (split; [apply nonEmpty_not_nil; assumption | apply Hrows]);
    try (split; reflexivity).
Qed.

(** The loop, one pass unrolled. *)
Lemma loop_unroll fuel st w :
  Opensea.done st = false ->
  loop (S fuel) st w =
  match tryBlock (urlAt st w) st w with
  | (Ok st1, w1, ev1) =>
      (result (loop fuel st1 w1), world (loop fuel st1 w1),
       ev1 ++ events (loop fuel st1 w1))
  | (Throw e, w1, ev1) =>
      if backfill then (Raised e, w1, ev1)
      else (Returned (Opensea.lastCreatedDate st), w1, ev1)
  end.
Proof.
  intros Hdone.
  destruct (tryBlock (urlAt st w) st w) as [[[st1|e] w1] ev1] eqn:Htry.
  - apply (loop_next env config buildFetchOrdersURL parseOpenSeaOrder
             listedAfter listedBefore backfill once limit fuel st w st1 w1 ev1 Hdone).
    apply iteration_ok. exact Htry.
  - apply (loop_error env config buildFetchOrdersURL parseOpenSeaOrder
             listedAfter listedBefore backfill once limit fuel st w e w1 ev1 Hdone Htry).
Qed.

(** What holds of the calls of every pass holds of the calls of a run. *)
Lemma loop_events_Forall (P : Opensea.Event -> Prop) :
  (forall url st w, Forall P (events (tryBlock url st w))) ->
  forall fuel st w, Forall P (events (loop fuel st w)).
Proof.
  intros Hpass. induction fuel as [|fuel IH]; intros st w.
  - simpl. destruct (Opensea.done st); constructor.
  - destruct (Opensea.done st) eqn:Hdone.
    + rewrite (loop_done env config buildFetchOrdersURL parseOpenSeaOrder
                 listedAfter listedBefore backfill once limit _ _ _ Hdone).
      constructor.
    + rewrite (loop_unroll _ _ _ Hdone).
      specialize (Hpass (urlAt st w) st w).
      destruct (tryBlock (urlAt st w) st w) as [[[st1|e] w1] ev1];
        cbn [events snd] in Hpass.
      * cbn [events snd]. apply Forall_app. split; [exact Hpass | apply IH].
      * destruct backfill; exact Hpass.
Qed.

Lemma fetchOrders_wellFormed fuel w0 :
  Forall wellFormed (events (fetchOrders fuel w0)).
Proof.
  unfold Opensea.fetchOrders. apply loop_events_Forall.
  intros url st w. apply tryBlock_wellFormed.
Qed.

(** X4.  Whatever the upstream serves, every batch the offset job hands to
    the database is non-empty, and each of its rows is tagged [opensea],
    has [delayed] set exactly when [once] is not, carries the order without
    its [asset], has [target] and [maker] in lower case, and is keyed and
    dated by the order it carries. *)
Theorem inserted_rows_normalized (fuel : nat) (w0 : W) :
  Forall (fun ev =>
            match ev with
            | Opensea.DbManyOrNone values =>
                values <> [] /\ Forall (OpenseaTrace.normalized once) values
            | _ => True
            end)
    (events (fetchOrders fuel w0)).
Proof.
  eapply Forall_impl; [|apply fetchOrders_wellFormed].
  intros [url cfg|orders prioritized|values|ms] Hev; cbn in Hev |- *;
    [exact I | exact I | exact Hev | exact I].
Qed.

(** X5.  Every request of a call goes out with a timeout of ten seconds;
    it carries an API key only on chain 1, and then the backfill key in a
    backfill and the realtime key otherwise. *)
Theorem requests_carry_mode_key (fuel : nat) (w0 : W) :
  Forall (fun ev =>
            match ev with
            | Opensea.AxiosGet _ requestConfig =>
                Opensea.timeout requestConfig = 10000 /\
                Opensea.headers requestConfig =
                if Opensea.chainId config =? 1
                then [("x-api-key",
                       if backfill then Opensea.backfillOpenseaApiKey config
                       else Opensea.realtimeOpenseaApiKey config)]
                else []
            | _ => True
            end)
    (events (fetchOrders fuel w0)).
Proof.
  eapply Forall_impl; [|apply fetchOrders_wellFormed].
  intros [url cfg|orders prioritized|values|ms] Hev; cbn in Hev |- *;
    try exact I.
  subst cfg. unfold Opensea.requestConfig.
  destruct (Opensea.chainId config =? 1); split; reflexivity.
Qed.

(** X6.  Every batch the offset job hands to the relay queue is non-empty,
    is sent with the flag set, and holds envelopes of kind
    [wyvern-v2.3] only. *)
Theorem relay_batches_tagged (fuel : nat) (w0 : W) :
  Forall (fun ev =>
            match ev with
            | Opensea.AddToRelayOrdersQueue orders prioritized =>
                orders <> [] /\ prioritized = true /\
                Forall (fun e => Opensea.kind e = "wyvern-v2.3") orders
            | _ => True
            end)
    (events (fetchOrders fuel w0)).
Proof.
  eapply Forall_impl; [|apply fetchOrders_wellFormed].
  intros [url cfg|orders prioritized|values|ms] Hev; cbn in Hev |- *;
    [exact I | exact Hev | exact I | exact I].
Qed.

(** X3.  Without [backfill] a call never raises, whatever the upstream,
    the queue and the database do. *)
Theorem realtime_call_never_raises (fuel : nat) (w0 : W) (e : Error)
  (Hbackfill : backfill = false) :
  result (fetchOrders fuel w0) <> Raised e.
Proof.
  unfold Opensea.fetchOrders.
  apply (realtime_never_raises env config buildFetchOrdersURL parseOpenSeaOrder
           listedAfter listedBefore backfill once limit fuel Hbackfill).
Qed.

(** *** The loop variables along a run *)

(** A pass that leaves [done] unset, with [once] unset, was served a full
    page and moved the offset on by the page size. *)
Lemma advance_continues st orders :
  once = false ->
  Opensea.done (advance st orders) = false ->
  Opensea.done st = false /\
  limit <= Z.of_nat (List.length orders) /\
  Opensea.offset (advance st orders) = Opensea.offset st + limit /\
  (backfill = false ->
   Opensea.numOrders (advance st orders) < Opensea.maxOrdersToFetch).
Proof.
  intros Honce. unfold Opensea.advance.
  cbn [Opensea.done Opensea.offset Opensea.numOrders]. rewrite Honce.
  destruct (Z.of_nat (List.length orders) <? limit) eqn:Hshort.
  - destruct (negb backfill && _); discriminate.
  - apply Z.ltb_ge in Hshort.
    destruct (Opensea.maxOrdersToFetch <=? _) eqn:Hmax.
    + destruct backfill; cbn [negb andb]; [|discriminate].
      intros Hdone. split; [exact Hdone|]. split; [exact Hshort|].
      split; [reflexivity | discriminate].
    + apply Z.leb_gt in Hmax. rewrite andb_false_r.
      intros Hdone. split; [exact Hdone|]. split; [exact Hshort|].
      split; [reflexivity | intros _; exact Hmax].
Qed.

Lemma pagesProcessed_start_not_done n :
  forall st0 w0 pages st w,
    pagesProcessed n st0 w0 = Some (pages, st, w) ->
    Opensea.done st = false -> Opensea.done st0 = false.
Proof.
  destruct n as [|n]; intros st0 w0 pages st w H Hdone.
  - inv H. exact Hdone.
  - cbn [Opensea.pagesProcessed] in H.
    destruct (Opensea.done st0); [discriminate | reflexivity].
Qed.

(** X1.  While the loop goes on, with [once] unset: the count is the
    number of orders on the pages processed so far, the offset has moved by
    one page size per page, every one of these pages was full, and without
    [backfill] the count is still below the ceiling. *)
Theorem loop_variables_invariant
  (n : nat) (st0 : Opensea.LoopState) (w0 : W)
  (pages : list (list Opensea.Order.t)) (st : Opensea.LoopState) (w : W)
  (Honce : once = false)
  (Hpages : pagesProcessed n st0 w0 = Some (pages, st, w))
  (Hdone : Opensea.done st = false) :
  List.length pages = n /\
  Opensea.numOrders st =
  Opensea.numOrders st0 + Z.of_nat (List.length (List.concat pages)) /\
  Opensea.offset st = Opensea.offset st0 + Z.of_nat n * limit /\
  Forall (fun page => limit <= Z.of_nat (List.length page)) pages /\
  (backfill = false -> (1 <= n)%nat ->
   Opensea.numOrders st < Opensea.maxOrdersToFetch).
Proof.
  revert st0 w0 pages Hpages.
  induction n as [|n IH]; intros st0 w0 pages Hpages.
  - cbn [Opensea.pagesProcessed] in Hpages. injection Hpages as <- <- <-.
    cbn [List.length List.concat]. repeat split; try lia. constructor.
  - apply pagesProcessed_succ_inv in Hpages.
    destruct Hpages
      as (orders & w' & st1 & w1 & ev1 & pages' & Hdone0 & Hget & Htry & Hrest & ->).
    destruct (IH st1 w1 pages' Hrest) as (Hlen & Hcount & Hoffset & Hfull & Hbelow).
    pose proof (pagesProcessed_start_not_done n _ _ _ _ _ Hrest Hdone) as Hdone1.
    apply tryBlock_ok_inv in Htry. destruct Htry as (orders' & w'' & Hget' & Hst1).
    rewrite Hget in Hget'. injection Hget' as <- _.
    rewrite Hst1 in Hdone1.
    destruct (advance_continues st0 orders Honce Hdone1) as (_ & Hpage & Hmoved & Hceil).
    rewrite Hst1 in Hcount, Hoffset.
    rewrite advance_numOrders in Hcount. rewrite Hmoved in Hoffset.
    cbn [List.length List.concat]. rewrite length_app.
    split; [lia|]. split; [lia|]. split; [lia|]. split.
    + constructor; assumption.
    + intros Hbackfill _. destruct n as [|n'].
      * cbn [Opensea.pagesProcessed] in Hrest. injection Hrest as _ <- _.
        rewrite Hst1. apply Hceil. exact Hbackfill.
      * apply Hbelow; [exact Hbackfill | lia].
Qed.

(** X2.  A call that gets through [n] pages and finds [done] set returns
    the creation date of the last order of these pages, the empty string
    when they held no order. *)
Theorem fetchOrders_returns_last_created
  (n : nat) (w0 : W) (pages : list (list Opensea.Order.t))
  (st : Opensea.LoopState) (w : W) (fuel : nat)
  (Hpages : pagesProcessed n (Opensea.initialState offset0) w0 = Some (pages, st, w))
  (Hdone : Opensea.done st = true)
  (Hfuel : (n <= fuel)%nat) :
  result (fetchOrders fuel w0) = Returned (Opensea.lastCreatedOf pages).
Proof.
  unfold Opensea.fetchOrders.
  replace fuel with (n + (fuel - n))%nat by lia.
  rewrite (pagesProcessed_loop env config buildFetchOrdersURL parseOpenSeaOrder
             listedAfter listedBefore backfill once limit _ _ _ _ _ _ _ Hpages).
  rewrite (loop_done env config buildFetchOrdersURL parseOpenSeaOrder
             listedAfter listedBefore backfill once limit _ _ _ Hdone).
  cbn [result fst].
  rewrite (pagesProcessed_lastCreatedDate env config buildFetchOrdersURL
             parseOpenSeaOrder listedAfter listedBefore backfill once limit
             _ _ _ _ _ _ Hpages).
  reflexivity.
Qed.

(** X8.  In a backfill the ceiling does not count: a pass that gets
    through the [try] block ends the loop exactly when its page was short,
    however many orders have been fetched. *)
Theorem backfill_stops_only_on_short_page
  (st : Opensea.LoopState) (w : W) (orders : list Opensea.Order.t) (w' : W)
  (st1 : Opensea.LoopState) (w1 : W) (ev1 : list Opensea.Event)
  (Hbackfill : backfill = true) (Honce : once = false)
  (Hdone : Opensea.done st = false)
  (Hget : Opensea.axios_get env (urlAt st w) requestConfig w = (Ok orders, w'))
  (Htry : tryBlock (urlAt st w) st w = (Ok st1, w1, ev1)) :
  Opensea.done st1 = true <-> Z.of_nat (List.length orders) < limit.
Proof.
  apply tryBlock_ok_inv in Htry. destruct Htry as (orders' & w'' & Hget' & Hst1).
  rewrite Hget in Hget'. injection Hget' as <- _.
  rewrite Hst1. unfold Opensea.advance. cbn [Opensea.done].
  rewrite Hbackfill, Honce, Hdone. cbn [negb andb].
  destruct (Z.of_nat (List.length orders) <? limit) eqn:Hshort.
  - apply Z.ltb_lt in Hshort. split; [intros _; exact Hshort | reflexivity].
  - apply Z.ltb_ge in Hshort. split; [discriminate | lia].
Qed.

(** *** Empty pages *)

Lemma tryBlock_empty_page_offset url st w w1 :
  Opensea.axios_get env url requestConfig w = (Ok [], w1) ->
  tryBlock url st w =
  (Ok (advance st []),
   (if once then w1 else Opensea.setTimeout env 1000 w1),
   Opensea.AxiosGet url requestConfig ::
   (if once then [] else [Opensea.SetTimeout 1000])).
Proof.
  intros Hget. unfold Opensea.tryBlock. unfold_monad. rewrite Hget.
  cbn [Opensea.parsedOrdersOf Opensea.valuesOf flat_map map nonEmpty].
  destruct once; reflexivity.
Qed.

Lemma loop_on_empty_pages (I : W -> Prop) :
  once = false -> limit <= 0 ->
  OpenseaTrace.exhausted env I ->
  forall fuel st w,
    I w -> Opensea.done st = false ->
    Opensea.numOrders st < Opensea.maxOrdersToFetch ->
    result (loop fuel st w) = OutOfFuel /\
    Opensea.fetchCount (events (loop fuel st w)) = fuel.
Proof.
  intros Honce Hlimit [Hempty Htimer].
  induction fuel as [|fuel IH]; intros st w HI Hdone Hbelow.
  - simpl. rewrite Hdone. split; reflexivity.
  - destruct (Hempty (urlAt st w) requestConfig w HI) as (w1 & Hget & HI1).
    rewrite (loop_unroll _ _ _ Hdone).
    rewrite (tryBlock_empty_page_offset _ st _ _ Hget).
    cbn [result events fst snd].
    assert (Hgo : Opensea.done (advance st []) = false).
    { unfold Opensea.advance. cbn [Opensea.done List.length]. rewrite Honce, Hdone.
      change (Z.of_nat 0) with 0. rewrite Z.add_0_r.
      assert (H0 : (0 <? limit) = false) by (apply Z.ltb_ge; exact Hlimit).
      assert (H1 : (Opensea.maxOrdersToFetch <=? Opensea.numOrders st) = false)
        by (apply Z.leb_gt; exact Hbelow).
      rewrite H0, H1, andb_false_r. reflexivity. }
    assert (Hsame : Opensea.numOrders (advance st []) < Opensea.maxOrdersToFetch).
    { rewrite advance_numOrders. cbn [List.length]. change (Z.of_nat 0) with 0. lia. }
    assert (HI2 : I (if once then w1 else Opensea.setTimeout env 1000 w1)).
    { rewrite Honce. apply Htimer. exact HI1. }
    destruct (IH _ _ HI2 Hgo Hsame) as [Hout Hcount].
    split; [exact Hout|].
    rewrite fetchCount_app, Hcount. rewrite Honce. reflexivity.
Qed.

(** X7.  On an upstream that serves empty pages only, with [once] unset:
    when the page size is positive the first page is short, and the call
    returns the empty string after one request; when the page size is zero
    or negative no page is ever short, and the loop goes on fetching,
    whatever the fuel. *)
Theorem empty_upstream_and_page_size
  (I : W -> Prop) (fuel : nat) (w0 : W)
  (Honce : once = false)
  (Hexhausted : OpenseaTrace.exhausted env I)
  (Hw0 : I w0) :
  (0 < limit ->
   result (fetchOrders (S fuel) w0) = Returned EmptyString /\
   Opensea.fetchCount (events (fetchOrders (S fuel) w0)) = 1%nat) /\
  (limit <= 0 ->
   result (fetchOrders fuel w0) = OutOfFuel /\
   Opensea.fetchCount (events (fetchOrders fuel w0)) = fuel).
Proof.
  split.
  - intros Hlimit. unfold Opensea.fetchOrders.
    destruct Hexhausted as [Hempty _].
    destruct (Hempty (urlAt (Opensea.initialState offset0) w0) requestConfig w0 Hw0)
      as (w1 & Hget & _).
    rewrite (loop_unroll fuel (Opensea.initialState offset0) w0 eq_refl).
    rewrite (tryBlock_empty_page_offset _ _ _ _ Hget).
    assert (Hstop : Opensea.done (advance (Opensea.initialState offset0) []) = true).
    { apply advance_short_page. cbn [List.length]. exact Hlimit. }
    rewrite (loop_done env config buildFetchOrdersURL parseOpenSeaOrder
               listedAfter listedBefore backfill once limit _ _ _ Hstop).
    cbn [result events fst snd]. rewrite app_nil_r.
    split; [reflexivity|]. rewrite Honce. reflexivity.
  - intros Hlimit. unfold Opensea.fetchOrders.
    apply (loop_on_empty_pages I Honce Hlimit Hexhausted); [exact Hw0 | reflexivity |].
    cbn [Opensea.initialState Opensea.numOrders]. unfold Opensea.maxOrdersToFetch. lia.
Qed.

(** *** The order of the calls *)

Lemma tryBlock_follows url st w :
  OpenseaTrace.follows OpenseaTrace.Idle (events (tryBlock url st w)) = true /\
  (once = false ->
   forall st1, result (tryBlock url st w) = Ok st1 ->
   forall tail,
     OpenseaTrace.follows OpenseaTrace.Idle (events (tryBlock url st w) ++ tail) =
     OpenseaTrace.follows OpenseaTrace.Idle tail).
Proof.
  unfold Opensea.tryBlock. unfold_monad.
  destruct (Opensea.axios_get env url requestConfig w) as [[orders|e] w1];
    [|split; [reflexivity | intros _ st1 H; discriminate H]].
  repeat match goal with
         | |- context [Opensea.addToRelayOrdersQueue env ?a ?b ?x] =>
             destruct (Opensea.addToRelayOrdersQueue env a b x) as [[[]|?] ?]
         | |- context [Opensea.db_manyOrNone env ?a ?x] =>
             destruct (Opensea.db_manyOrNone env a x) as [[?|?] ?]
         | |- context [nonEmpty ?xs] => destruct (nonEmpty xs) eqn:?
         end;
    destruct once; cbn [negb result events fst snd app];
    (split; [reflexivity | intros Honce st1 Hok tail;
                           try discriminate Honce; try discriminate Hok;
                           reflexivity]).
Qed.

(** X9.  In every call the calls come pass by pass in one order: the
    request, then the relay queue, then the insert, then the wait that ends
    the pass.  So the orders of a page are in the queue before their rows
    are inserted, and no request but the first goes out without a wait just
    before it. *)
Theorem calls_in_pass_order (fuel : nat) (w0 : W) :
  OpenseaTrace.follows OpenseaTrace.Idle (events (fetchOrders fuel w0)) = true.
Proof.
  unfold Opensea.fetchOrders. generalize (Opensea.initialState offset0) as st.
  revert w0. induction fuel as [|fuel IH]; intros w st.
  - simpl. destruct (Opensea.done st); reflexivity.
  - destruct (Opensea.done st) eqn:Hdone.
    + rewrite (loop_done env config buildFetchOrdersURL parseOpenSeaOrder
                 listedAfter listedBefore backfill once limit _ _ _ Hdone).
      reflexivity.
    + rewrite (loop_unroll _ _ _ Hdone).
      destruct (tryBlock_follows (urlAt st w) st w) as [Hpass Hnext].
      destruct (tryBlock (urlAt st w) st w) as [[[st1|e] w1] ev1] eqn:Htry;
        cbn [events result fst snd] in Hpass, Hnext |- *.
      * destruct (Bool.bool_dec once true) as [Honce|Honce].
        -- assert (Hstop : Opensea.done st1 = true).
           { apply tryBlock_ok_inv in Htry.
             destruct Htry as (orders & w' & _ & ->).
             apply advance_once. exact Honce. }
           rewrite (loop_done env config buildFetchOrdersURL parseOpenSeaOrder
                      listedAfter listedBefore backfill once limit _ _ _ Hstop).
           cbn [events snd]. rewrite app_nil_r. exact Hpass.
        -- apply Bool.not_true_is_false in Honce.
           rewrite (Hnext Honce st1 eq_refl). apply IH.
      * destruct backfill; exact Hpass.
Qed.
End OffsetJobRecord.

(** *** More of the offset job in the reference environment *)

(** After one full page of two orders the backfill stands at count 2 and
    offset 2. *)
Lemma loop_variables_invariant_witness :
  exists st w,
    Opensea.pagesProcessed Reference.OpenseaWorld.env Reference.OpenseaWorld.config
      Reference.OpenseaWorld.buildFetchOrdersURL Reference.OpenseaWorld.parseNothing
      0 0 true false 2 1 (Opensea.initialState 0)
      (Reference.OpenseaWorld.serving
         [Reference.OpenseaWorld.page1; Reference.OpenseaWorld.page3]) =
    Some ([Reference.OpenseaWorld.page1], st, w) /\
    Opensea.numOrders st = 2 /\
    Opensea.offset st = 2.
Proof.
  unshelve epose proof
    (loop_variables_invariant Reference.OpenseaWorld.env Reference.OpenseaWorld.config
       Reference.OpenseaWorld.buildFetchOrdersURL Reference.OpenseaWorld.parseNothing
       0 0 true false 2 1 (Opensea.initialState 0)
       (Reference.OpenseaWorld.serving
          [Reference.OpenseaWorld.page1; Reference.OpenseaWorld.page3])
       [Reference.OpenseaWorld.page1] _ _ eq_refl _ _) as H;
    [try (vm_compute; reflexivity) .. |].
  destruct H as (_ & Hcount & Hoffset & _).
  do 2 eexists. split; [vm_compute; reflexivity|].
  split; [exact Hcount | exact Hoffset].
Defined.

(** One short page: the call returns the date of its last order. *)
Lemma fetchOrders_returns_last_created_witness :
  result
    (Opensea.fetchOrders Reference.OpenseaWorld.env Reference.OpenseaWorld.config
       Reference.OpenseaWorld.buildFetchOrdersURL Reference.OpenseaWorld.parseNothing
       0 0 true false 0 50 3
       (Reference.OpenseaWorld.serving [Reference.OpenseaWorld.page1])) =
  Returned "2022-05-01T10:00:01".
Proof.
  unshelve epose proof
    (fetchOrders_returns_last_created Reference.OpenseaWorld.env
       Reference.OpenseaWorld.config Reference.OpenseaWorld.buildFetchOrdersURL
       Reference.OpenseaWorld.parseNothing 0 0 true false 0 50
       1 (Reference.OpenseaWorld.serving [Reference.OpenseaWorld.page1])
       [Reference.OpenseaWorld.page1] _ _ 3 _ _ _) as H;
    [try (vm_compute; reflexivity) .. | lia |].
  exact H.
Defined.

(** The realtime call over the upstream that fails does not raise its
    error. *)
Lemma realtime_call_never_raises_witness :
  result
    (Opensea.fetchOrders Reference.OpenseaWorld.env Reference.OpenseaWorld.config
       Reference.OpenseaWorld.buildFetchOrdersURL Reference.OpenseaWorld.parseNothing
       0 0 false false 0 2 5 Reference.OpenseaWorld.failingSecondPage) <>
  Raised (ExternalError "timeout of 10000ms exceeded").
Proof.
  apply (realtime_call_never_raises Reference.OpenseaWorld.env
           Reference.OpenseaWorld.config Reference.OpenseaWorld.buildFetchOrdersURL
           Reference.OpenseaWorld.parseNothing 0 0 false false 0 2 5
           Reference.OpenseaWorld.failingSecondPage
           (ExternalError "timeout of 10000ms exceeded") eq_refl).
Defined.

(** Far beyond the ceiling, a full page keeps the backfill going. *)
Lemma backfill_stops_only_on_short_page_witness :
  exists st1 w1 ev1,
    Opensea.tryBlock Reference.OpenseaWorld.env Reference.OpenseaWorld.config
      Reference.OpenseaWorld.parseNothing true false 50 "orders?offset>0"
      {| Opensea.offset := 5000; Opensea.numOrders := 5000;
         Opensea.lastCreatedDate := "2022-05-01T10:00:02"; Opensea.done := false |}
      (Reference.OpenseaWorld.fullPages 3) = (Ok st1, w1, ev1) /\
    (Opensea.done st1 = true <->
     Z.of_nat (List.length (Reference.OpenseaWorld.fullPage 50)) < 50).
Proof.
  unshelve epose proof
    (backfill_stops_only_on_short_page Reference.OpenseaWorld.env
       Reference.OpenseaWorld.config Reference.OpenseaWorld.buildFetchOrdersURL
       Reference.OpenseaWorld.parseNothing 0 0 true false 50
       {| Opensea.offset := 5000; Opensea.numOrders := 5000;
          Opensea.lastCreatedDate := "2022-05-01T10:00:02"; Opensea.done := false |}
       (Reference.OpenseaWorld.fullPages 3)
       (Reference.OpenseaWorld.fullPage 50) _ _ _ _ eq_refl eq_refl eq_refl _ _) as H;
    [try (vm_compute; reflexivity) .. |].
  do 3 eexists. split; [vm_compute; reflexivity | exact H].
Defined.

(** The upstream with nothing to serve: at page size 50 the call returns
    after one request, at page size 0 it never does. *)
Lemma empty_upstream_and_page_size_witness :
  (result
     (Opensea.fetchOrders Reference.OpenseaWorld.env Reference.OpenseaWorld.config
        Reference.OpenseaWorld.buildFetchOrdersURL Reference.OpenseaWorld.parseNothing
        0 0 true false 0 50 6 (Reference.OpenseaWorld.serving [])) =
   Returned EmptyString /\
   Opensea.fetchCount
     (events
        (Opensea.fetchOrders Reference.OpenseaWorld.env Reference.OpenseaWorld.config
           Reference.OpenseaWorld.buildFetchOrdersURL
           Reference.OpenseaWorld.parseNothing
           0 0 true false 0 50 6 (Reference.OpenseaWorld.serving []))) = 1%nat) /\
  (result
     (Opensea.fetchOrders Reference.OpenseaWorld.env Reference.OpenseaWorld.config
        Reference.OpenseaWorld.buildFetchOrdersURL Reference.OpenseaWorld.parseNothing
        0 0 true false 0 0 6 (Reference.OpenseaWorld.serving [])) = OutOfFuel /\
   Opensea.fetchCount
     (events
        (Opensea.fetchOrders Reference.OpenseaWorld.env Reference.OpenseaWorld.config
           Reference.OpenseaWorld.buildFetchOrdersURL
           Reference.OpenseaWorld.parseNothing
           0 0 true false 0 0 6 (Reference.OpenseaWorld.serving []))) = 6%nat).
Proof.
  assert (Hexhausted :
            OpenseaTrace.exhausted Reference.OpenseaWorld.env
              (fun w => Reference.OpenseaWorld.upstream w = [])).
  { split.
    - intros url config w Hw. exists w.
      cbn [Opensea.axios_get Reference.OpenseaWorld.env].
      split; [rewrite Hw; reflexivity | exact Hw].
    - intros ms w Hw. exact Hw. }
  split.
  - apply (proj1 (empty_upstream_and_page_size Reference.OpenseaWorld.env
                    Reference.OpenseaWorld.config
                    Reference.OpenseaWorld.buildFetchOrdersURL
                    Reference.OpenseaWorld.parseNothing 0 0 true false 0 50
                    (fun w => Reference.OpenseaWorld.upstream w = [])
                    5 (Reference.OpenseaWorld.serving []) eq_refl Hexhausted eq_refl)).
    reflexivity.
  - apply (proj2 (empty_upstream_and_page_size Reference.OpenseaWorld.env
                    Reference.OpenseaWorld.config
                    Reference.OpenseaWorld.buildFetchOrdersURL
                    Reference.OpenseaWorld.parseNothing 0 0 true false 0 0
                    (fun w => Reference.OpenseaWorld.upstream w = [])
                    6 (Reference.OpenseaWorld.serving []) eq_refl Hexhausted eq_refl)).
    discriminate.
Defined.

(** ** More on the cursor jobs *)

Section CursorRows.
Variable parseSeaportOrder : Seaport.Order.t -> option Seaport.Sdk.Order.

Local Abbreviation drainHandle := (Seaport.FetchOrders.handleOrder parseSeaportOrder).
Local Abbreviation windowHandle :=
  (Seaport.FetchAllOrders.handleOrder parseSeaportOrder).
Local Abbreviation offerOf :=
  (fun order : Seaport.Order.t =>
     Seaport.Order.offer (Seaport.Order.parameters (Seaport.Order.protocol_data order))).
Local Abbreviation noToken :=
  (TypeError "Cannot read properties of undefined (reading 'token')").

(** The [handleOrder] of the drain, from the one of the window. *)
Lemma drainHandle_from_window (order : Seaport.Order.t) :
  drainHandle order =
  match windowHandle order with
  | Ok (parsed, row) => Ok (parsed, SeaportTrace.withLowerHash row)
  | Throw e => Throw e
  end.
Proof.
  unfold Seaport.FetchOrders.handleOrder, Seaport.FetchAllOrders.handleOrder.
  destruct (Seaport.parsedContract (parseSeaportOrder order)) as [contract|].
  - rewrite truthy_toLowerCase.
    destruct (truthy contract); [reflexivity|].
    destruct (Seaport.firstOfferToken order); reflexivity.
  - destruct (Seaport.firstOfferToken order); reflexivity.
Qed.

(** [handleOrder] throws exactly on an order that offers nothing while
    the fallback is needed, and then the error of reading [token]. *)
Lemma windowHandle_throws order e :
  windowHandle order = Throw e <->
  offerOf order = [] /\
  SeaportTrace.needsFallback (parseSeaportOrder order) = true /\
  e = noToken.
Proof.
  unfold Seaport.FetchAllOrders.handleOrder, SeaportTrace.needsFallback,
    Seaport.firstOfferToken.
  destruct (Seaport.parsedContract (parseSeaportOrder order)) as [contract|];
    [destruct (truthy contract)|];
    destruct (offerOf order) as [|item items]; cbn [negb];
    split; try discriminate;
    try (intros (H1 & H2 & H3); discriminate);
    try (intros H; injection H as <-; repeat split);
    try (intros (_ & _ & ->); reflexivity).
Qed.

Lemma drainHandle_throws order e :
  drainHandle order = Throw e <->
  offerOf order = [] /\
  SeaportTrace.needsFallback (parseSeaportOrder order) = true /\
  e = noToken.
Proof.
  rewrite drainHandle_from_window, <- windowHandle_throws.
  destruct (windowHandle order) as [[parsed row]|e']; split; try discriminate;
    intros H; exact H.
Qed.

(** X10.  The two [handleOrder]s of the cursor jobs fail on the same
    orders, with the same error, namely on the orders that offer nothing
    while the parsed order gives no contract to go by; on all others they
    build the same row but for the hash, which only the continuous drain
    puts in lower case. *)
Theorem handleOrder_variants_agree (order : Seaport.Order.t) :
  drainHandle order =
  match windowHandle order with
  | Ok (parsed, row) => Ok (parsed, SeaportTrace.withLowerHash row)
  | Throw e => Throw e
  end /\
  ((exists e, windowHandle order = Throw e) <->
   offerOf order = [] /\
   SeaportTrace.needsFallback (parseSeaportOrder order) = true) /\
  (forall e, windowHandle order = Throw e -> e = noToken).
Proof.
  split; [apply drainHandle_from_window|]. split; [split|].
  - intros [e He]. apply windowHandle_throws in He.
    destruct He as (Hoffer & Hfallback & _). split; assumption.
  - intros [Hoffer Hfallback]. exists noToken.
    apply windowHandle_throws. repeat split; assumption.
  - intros e He. apply windowHandle_throws in He.
    destruct He as (_ & _ & ->). reflexivity.
Qed.
End CursorRows.

(** One failing order fails the page, when all failures are the same. *)
Lemma handleOrders_throws {P R : Type}
  (handle : Seaport.Order.t -> Outcome (option P * R)) (error : Error) :
  (forall order e, handle order = Throw e -> e = error) ->
  forall page order,
    In order page -> handle order = Throw error ->
    Seaport.handleOrders handle page = Throw error.
Proof.
  intros Hsame. induction page as [|first page IH]; intros order Hin Hthrow.
  - destruct Hin.
  - cbn [Seaport.handleOrders].
    destruct (handle first) as [[parsed row]|e] eqn:Hfirst.
    + destruct Hin as [->|Hin]; [congruence|].
      rewrite (IH order Hin Hthrow). reflexivity.
    + rewrite (Hsame first e Hfirst). reflexivity.
Qed.

(** The parsed orders of a page are those that parse, and there is a row
    for each order of the page. *)
Lemma handleOrders_ok {R : Type}
  (parse : Seaport.Order.t -> option Seaport.Sdk.Order)
  (handle : Seaport.Order.t -> Outcome (option Seaport.Sdk.Order * R))
  (rowOf : Seaport.Order.t -> R) :
  forall page,
    (forall order, In order page -> handle order = Ok (parse order, rowOf order)) ->
    Seaport.handleOrders handle page =
    Ok (SeaportTrace.parsedOf parse page, map rowOf page).
Proof.
  induction page as [|first page IH]; intros Hall; [reflexivity|].
  cbn [Seaport.handleOrders]. rewrite (Hall first (or_introl eq_refl)).
  rewrite IH by (intros order Hin; apply Hall; right; exact Hin).
  unfold SeaportTrace.parsedOf. cbn [flat_map map].
  destruct (parse first); reflexivity.
Qed.

(** Whenever an order of the page parses, the page has a row. *)
Lemma handleOrders_parsed_has_rows {P R : Type}
  (handle : Seaport.Order.t -> Outcome (option P * R)) :
  forall page parsedOrders values,
    Seaport.handleOrders handle page = Ok (parsedOrders, values) ->
    nonEmpty parsedOrders = true -> nonEmpty values = true.
Proof.
  intros page parsedOrders values H Hparsed.
  destruct page as [|first page].
  - cbn in H. injection H as <- <-. discriminate Hparsed.
  - cbn [Seaport.handleOrders] in H.
    destruct (handle first) as [[parsed row]|e]; [|discriminate].
    destruct (Seaport.handleOrders handle page) as [[ps rows]|e]; [|discriminate].
    injection H as _ <-. reflexivity.
Qed.

Section CursorPages.
Variable parseSeaportOrder : Seaport.Order.t -> option Seaport.Sdk.Order.

Local Abbreviation drainHandle := (Seaport.FetchOrders.handleOrder parseSeaportOrder).
Local Abbreviation windowHandle :=
  (Seaport.FetchAllOrders.handleOrder parseSeaportOrder).
Local Abbreviation offerOf :=
  (fun order : Seaport.Order.t =>
     Seaport.Order.offer (Seaport.Order.parameters (Seaport.Order.protocol_data order))).
Local Abbreviation served :=
  (fun order : Seaport.Order.t =>
     offerOf order <> [] \/
     SeaportTrace.needsFallback (parseSeaportOrder order) = false).


End CursorPages.

Section ContinuousDrainRecord.
Context {W : Type}.
Variable env : Seaport.Env W.
Variable buildFetchOrdersURL : Seaport.FetchParams.t -> string.
Variable parseSeaportOrder : Seaport.Order.t -> option Seaport.Sdk.Order.

Local Abbreviation handleOrder := (Seaport.FetchOrders.handleOrder parseSeaportOrder).
Local Abbreviation tryBlock :=
  (Seaport.FetchOrders.tryBlock env buildFetchOrdersURL parseSeaportOrder).
Local Abbreviation loop :=
  (Seaport.FetchOrders.loop env buildFetchOrdersURL parseSeaportOrder).
Local Abbreviation fetchOrders :=
  (Seaport.FetchOrders.fetchOrders env buildFetchOrdersURL parseSeaportOrder).
Local Abbreviation urlOf :=
  (fun st : Seaport.FetchOrders.LoopState =>
     buildFetchOrdersURL
       (Seaport.FetchOrders.fetchParams (Seaport.FetchOrders.cursor st))).
Local Abbreviation offerOf :=
  (fun order : Seaport.Order.t =>
     Seaport.Order.offer (Seaport.Order.parameters (Seaport.Order.protocol_data order))).
Local Abbreviation noToken :=
  (TypeError "Cannot read properties of undefined (reading 'token')").

(** X11.  One order of the page that offers nothing, while its parsed
    order gives no contract to go by, makes the continuous drain raise the
    error of reading [token]: the request is the only call of the pass, so
    no row of that page is inserted and none of its orders is queued. *)
Theorem drain_aborts_on_order_without_offer
  (st : Seaport.FetchOrders.LoopState) (w : W) (resp : Seaport.ResponseData)
  (w' : W) (order : Seaport.Order.t) (fuel : nat)
  (Hdone : Seaport.FetchOrders.done st = false)
  (Hget : Seaport.axios_get env (urlOf st) Seaport.requestConfig w = (Ok resp, w'))
  (Hin : In order (Seaport.orders resp))
  (Hoffer : offerOf order = [])
  (Hfallback : SeaportTrace.needsFallback (parseSeaportOrder order) = true) :
  loop (S fuel) st w =
  (Raised noToken, w', [Seaport.AxiosGet (urlOf st) Seaport.requestConfig]).
Proof.
  assert (Hpage : Seaport.handleOrders handleOrder (Seaport.orders resp) = Throw noToken).
  { apply (handleOrders_throws handleOrder noToken) with (order := order).
    - intros o e He. apply (drainHandle_throws parseSeaportOrder o e) in He.
      destruct He as (_ & _ & ->). reflexivity.
    - exact Hin.
    - apply (drainHandle_throws parseSeaportOrder order noToken).
      repeat split; assumption. }
  apply (drain_loop_throw env buildFetchOrdersURL parseSeaportOrder
           fuel st w noToken w' _ Hdone).
  unfold Seaport.FetchOrders.tryBlock. unfold_monad.
  rewrite Hget, Hpage. reflexivity.
Qed.

(** X13.  A pass of the drain whose insert answers with at least one row
    leaves [done] as it was and takes the [next] token of the response as
    the cursor, also when that token is [null]: the following request is
    then the one a fresh call starts with. *)
Theorem drain_goes_on_after_new_rows
  (st : Seaport.FetchOrders.LoopState) (w : W) (resp : Seaport.ResponseData)
  (w' : W) (parsedOrders : list Seaport.Sdk.Order) (values : list Seaport.Row.t)
  (one : Z) (answer : list Z) (w2 : W)
  (st1 : Seaport.FetchOrders.LoopState) (w1 : W) (ev1 : list Seaport.Event)
  (Hget : Seaport.axios_get env (urlOf st) Seaport.requestConfig w = (Ok resp, w'))
  (Hrows : Seaport.handleOrders handleOrder (Seaport.orders resp) =
           Ok (parsedOrders, values))
  (Hdb : Seaport.db_manyOrNone env values w' = (Ok (one :: answer), w2))
  (Htry : tryBlock st w = (Ok st1, w1, ev1)) :
  Seaport.FetchOrders.done st1 = Seaport.FetchOrders.done st /\
  Seaport.FetchOrders.cursor st1 = Seaport.next resp /\
  (Seaport.next resp = None ->
   urlOf st1 = urlOf Seaport.FetchOrders.initialState).
Proof.
  revert Htry. unfold Seaport.FetchOrders.tryBlock. unfold_monad.
  rewrite Hget, Hrows. cbn [fst snd].
  destruct (nonEmpty values); [rewrite Hdb; cbn [nonEmpty]|];
    (destruct (nonEmpty parsedOrders);
     [destruct (Seaport.addToRelayOrdersQueue env _ true _) as [[[]|e] w3]|]);
    intros H; try discriminate H; injection H as <- _ _;
    cbn [Seaport.FetchOrders.done Seaport.FetchOrders.cursor];
    (split; [reflexivity|]; split; [reflexivity|]; intros ->; reflexivity).
Qed.

(** *** The order of the calls *)

Lemma follows_from_anywhere (q : SeaportTrace.Phase) (evs : list Seaport.Event) :
  SeaportTrace.follows SeaportTrace.Idle evs = true ->
  SeaportTrace.follows q evs = true.
Proof.
  destruct evs as [|[url cfg|values|orders prioritized] evs]; cbn;
    try discriminate; intros H; try reflexivity; destruct q; exact H.
Qed.

Lemma drain_tryBlock_follows st w tail :
  SeaportTrace.follows SeaportTrace.Idle tail = true ->
  SeaportTrace.follows SeaportTrace.Idle (events (tryBlock st w) ++ tail) = true.
Proof.
  intros Htail. unfold Seaport.FetchOrders.tryBlock. unfold_monad.
  destruct (Seaport.axios_get env (urlOf st) Seaport.requestConfig w)
    as [[resp|e] w1];
    [|cbn; apply follows_from_anywhere; exact Htail].
  destruct (Seaport.handleOrders handleOrder (Seaport.orders resp))
    as [[parsedOrders values]|e] eqn:Hrows;
    [|cbn; apply follows_from_anywhere; exact Htail].
  pose proof (handleOrders_parsed_has_rows handleOrder _ _ _ Hrows) as Hhas.
  cbn [fst snd].
  destruct (nonEmpty values);
    [destruct (Seaport.db_manyOrNone env values w1) as [[answer|e] w2]|];
    (destruct (nonEmpty parsedOrders);
     [try (specialize (Hhas eq_refl); discriminate Hhas);
      try destruct (Seaport.addToRelayOrdersQueue env _ true _) as [[[]|e'] w3]|]);
    cbn; apply follows_from_anywhere; exact Htail.
Qed.

(** X14.  In every call of the continuous drain the calls come pass by
    pass in one order: the request, then the insert, then the relay queue;
    and the relay queue is only ever called right after an insert, so no
    order is queued from a page whose rows were not sent to the store
    first. *)
Theorem drain_calls_in_pass_order (fuel : nat) (w0 : W) :
  SeaportTrace.follows SeaportTrace.Idle (events (fetchOrders fuel w0)) = true.
Proof.
  unfold Seaport.FetchOrders.fetchOrders.
  generalize Seaport.FetchOrders.initialState as st.
  revert w0. induction fuel as [|fuel IH]; intros w st.
  - simpl. destruct (Seaport.FetchOrders.done st); reflexivity.
  - destruct (Seaport.FetchOrders.done st) eqn:Hdone.
    + rewrite (drain_loop_done env buildFetchOrdersURL parseSeaportOrder _ _ _ Hdone).
      reflexivity.
    + pose proof (drain_tryBlock_follows st w) as Hpass.
      destruct (tryBlock st w) as [[[st1|e] w1] ev1] eqn:Htry;
        cbn [events snd] in Hpass.
      * rewrite (drain_loop_next env buildFetchOrdersURL parseSeaportOrder
                   _ _ _ _ _ _ Hdone Htry).
        cbn [events snd]. apply Hpass, IH.
      * rewrite (drain_loop_throw env buildFetchOrdersURL parseSeaportOrder
                   _ _ _ _ _ _ Hdone Htry).
        cbn [events snd]. specialize (Hpass [] eq_refl).
        rewrite app_nil_r in Hpass. exact Hpass.
Qed.
End ContinuousDrainRecord.

Section BoundedWindowRecord.
Context {W : Type}.
Variable env : Seaport.Env W.
Variable buildFetchOrdersURL : Seaport.FetchParams.t -> string.
Variable parseSeaportOrder : Seaport.Order.t -> option Seaport.Sdk.Order.
Variables (fromTimestamp toTimestamp : option Z) (cursor : option string).

Local Abbreviation handleOrder :=
  (Seaport.FetchAllOrders.handleOrder parseSeaportOrder).
Local Abbreviation tryBlock :=
  (Seaport.FetchAllOrders.tryBlock env buildFetchOrdersURL parseSeaportOrder
     fromTimestamp toTimestamp cursor).
Local Abbreviation fetchAllOrders :=
  (Seaport.FetchAllOrders.fetchAllOrders env buildFetchOrdersURL parseSeaportOrder
     fromTimestamp toTimestamp cursor).
Local Abbreviation url :=
  (buildFetchOrdersURL
     (Seaport.FetchAllOrders.fetchParams fromTimestamp toTimestamp cursor)).
Local Abbreviation offerOf :=
  (fun order : Seaport.Order.t =>
     Seaport.Order.offer (Seaport.Order.parameters (Seaport.Order.protocol_data order))).
Local Abbreviation noToken :=
  (TypeError "Cannot read properties of undefined (reading 'token')").


(** X16.  The bounded window makes its calls in one order: the request,
    then the insert, then the relay queue, which it only calls right after
    the insert. *)
Theorem window_calls_in_order (w : W) :
  SeaportTrace.follows SeaportTrace.Idle (events (fetchAllOrders w)) = true.
Proof.
  rewrite window_catch.
  unfold Seaport.FetchAllOrders.tryBlock. unfold_monad.
  destruct (Seaport.axios_get env url Seaport.requestConfig w) as [[resp|e] w1];
    [|reflexivity].
  destruct (Seaport.handleOrders handleOrder (Seaport.orders resp))
    as [[parsedOrders values]|e] eqn:Hrows; [|reflexivity].
  pose proof (handleOrders_parsed_has_rows handleOrder _ _ _ Hrows) as Hhas.
  cbn [fst snd].
  destruct (nonEmpty values);
    [destruct (Seaport.db_manyOrNone env values w1) as [[answer|e] w2]|];
    (destruct (nonEmpty parsedOrders);
     [try (specialize (Hhas eq_refl); discriminate Hhas);
      try destruct (Seaport.addToRelayOrdersQueue env _ true _) as [[[]|e'] w3]|]);
    reflexivity.
Qed.
End BoundedWindowRecord.

(** *** More of the cursor jobs in the reference environment *)


(** A page with an order that offers nothing, and no parser to help. *)
Lemma drain_aborts_on_order_without_offer_witness :
  Seaport.FetchOrders.fetchOrders Reference.SeaportWorld.env
    Reference.SeaportWorld.buildFetchOrdersURL Reference.SeaportWorld.parseNothing
    4
    {| Reference.SeaportWorld.upstream :=
         [Ok {| Seaport.orders :=
                  [Reference.SeaportWorld.order "0xb1" ["0xC0FFEE"];
                   Reference.SeaportWorld.order "0xb9" []];
                Seaport.next := Some "cursor-2" |}];
       Reference.SeaportWorld.store := [] |} =
  (Raised (TypeError "Cannot read properties of undefined (reading 'token')"),
   {| Reference.SeaportWorld.upstream := []; Reference.SeaportWorld.store := [] |},
   [Seaport.AxiosGet "orders" Seaport.requestConfig]).
Proof.
  apply (drain_aborts_on_order_without_offer Reference.SeaportWorld.env
           Reference.SeaportWorld.buildFetchOrdersURL
           Reference.SeaportWorld.parseNothing
           Seaport.FetchOrders.initialState _
           {| Seaport.orders :=
                [Reference.SeaportWorld.order "0xb1" ["0xC0FFEE"];
                 Reference.SeaportWorld.order "0xb9" []];
              Seaport.next := Some "cursor-2" |}
           _ (Reference.SeaportWorld.order "0xb9" []) 3);
    [reflexivity | reflexivity | right; left; reflexivity | reflexivity | reflexivity].
Defined.


(** The first page of the sample upstream brings two new rows: the drain
    goes on with the token of the page. *)
Lemma drain_goes_on_after_new_rows_witness :
  exists st1 w1 ev1,
    Seaport.FetchOrders.tryBlock Reference.SeaportWorld.env
      Reference.SeaportWorld.buildFetchOrdersURL Reference.SeaportWorld.parseNothing
      Seaport.FetchOrders.initialState Reference.SeaportWorld.caughtUp =
    (Ok st1, w1, ev1) /\
    Seaport.FetchOrders.done st1 = false /\
    Seaport.FetchOrders.cursor st1 = Some "cursor-2".
Proof.
  unshelve epose proof
    (drain_goes_on_after_new_rows Reference.SeaportWorld.env
       Reference.SeaportWorld.buildFetchOrdersURL Reference.SeaportWorld.parseNothing
       Seaport.FetchOrders.initialState Reference.SeaportWorld.caughtUp
       Reference.SeaportWorld.pageA _ _ _ 1 [1] _ _ _ _ _ _ _ _) as H;
    [try (vm_compute; reflexivity) .. |].
  destruct H as (Hdone & Hcursor & _).
  do 3 eexists. split; [vm_compute; reflexivity|].
  split; [exact Hdone | exact Hcursor].
Defined.
